(** * ctanpkglist: package and class tables for LaTeX Workshop

    A shallow embedding of [dev/ctanpkglist.py].  The script crosses the
    CTAN catalogue (a list of [{key, caption}] records) with the [ls-R]
    database of a TeX installation and produces two tables: the packages
    for which a [.sty] file is installed, and the installed classes.

    Python dictionaries are finite maps ([gmap string _]): no function of
    the script observes the insertion order of a dictionary, and the two
    tables are dumped with [sort_keys=True].  Python lists are lists.
    Strings are [string]; [str.lower] is modelled on ASCII text, which is
    what CTAN keys and the file names of [ls-R] are made of: a statement
    that depends on what [str.lower] returns is made of file names that
    are ASCII text ([ascii_text]), where [Str.lower] is [str.lower].  The subset
    of [pathlib.PurePosixPath] the script uses ([parts], [name], [suffix],
    [stem]) is embedded in [Module Path]. *)

From Stdlib Require Import Ascii.
From stdpp Require Import gmap strings list fin_maps.

#[local] Arguments String.append !_ _ / : simpl nomatch.

(** ** Python string methods *)

Module Str.

Definition nl : ascii := ascii_of_nat 10.
Definition slash : ascii := "/"%char.
Definition dot : ascii := "."%char.

(** [s.startswith(pre)] *)
Definition startswith (pre s : string) : bool := String.prefix pre s.

(** [s.endswith(suf)]: [s] itself or one of its tails is [suf]. *)
Fixpoint endswith (suf s : string) : bool :=
  if String.eqb s suf then true
  else match s with
       | EmptyString => false
       | String _ r => endswith suf r
       end.

(** [s.rstrip('\n')]: every trailing newline is removed. *)
Fixpoint rstrip_nl (s : string) : string :=
  match s with
  | EmptyString => EmptyString
  | String c r =>
      match rstrip_nl r with
      | EmptyString => if Ascii.eqb c nl then EmptyString else String c EmptyString
      | r' => String c r'
      end
  end.

(** [s[0:-1]]: all but the last character (the empty string stays empty). *)
Fixpoint drop_last (s : string) : string :=
  match s with
  | EmptyString => EmptyString
  | String c EmptyString => EmptyString
  | String c r => String c (drop_last r)
  end.

(** [s[:n]] and [s[n:]] for [0 <= n]. *)
Fixpoint take (n : nat) (s : string) : string :=
  match n, s with
  | S n', String c r => String c (take n' r)
  | _, _ => EmptyString
  end.

Fixpoint drop (n : nat) (s : string) : string :=
  match n, s with
  | S n', String _ r => drop n' r
  | _, _ => s
  end.

(** [s.rfind(c)] for a one-character needle; [None] stands for [-1]. *)
Fixpoint rfind (c : ascii) (s : string) : option nat :=
  match s with
  | EmptyString => None
  | String a r =>
      match rfind c r with
      | Some i => Some (S i)
      | None => if Ascii.eqb a c then Some 0 else None
      end
  end.

(** [s.split('/')] *)
Fixpoint split_sep (s : string) : list string :=
  match s with
  | EmptyString => [EmptyString]
  | String c r =>
      if Ascii.eqb c slash then EmptyString :: split_sep r
      else match split_sep r with
           | h :: t => String c h :: t
           | [] => [String c EmptyString]
           end
  end.

(** [s.lstrip('/')] *)
Fixpoint lstrip_sep (s : string) : string :=
  match s with
  | String c r => if Ascii.eqb c slash then lstrip_sep r else s
  | EmptyString => EmptyString
  end.

(** [str.lower] on ASCII text: [A-Z] go to [a-z], every other
    character is kept.  Python's [str.lower] also changes letters
    outside ASCII, which this function keeps: it is [str.lower] on
    the strings that [ascii_text] accepts and on no others, and the
    statements about a lower-cased file name are made of those. *)
Definition lower_ascii (c : ascii) : ascii :=
  let n := nat_of_ascii c in
  if (65 <=? n) && (n <=? 90) then ascii_of_nat (n + 32) else c.

Fixpoint lower (s : string) : string :=
  match s with
  | EmptyString => EmptyString
  | String c r => String (lower_ascii c) (lower r)
  end.

(** ['/' in s] *)
Fixpoint has_sep (s : string) : bool :=
  match s with
  | EmptyString => false
  | String c r => Ascii.eqb c slash || has_sep r
  end.

End Str.

(** ** The part of [pathlib.PurePosixPath] the script relies on

    A path is parsed from one string.  Its components are the pieces
    between slashes, with the empty pieces and the pieces ["."] removed;
    a path that begins with a slash has a root, which is ["//"] for
    exactly two leading slashes and ["/"] otherwise.  The name is the last
    component, or the empty string when there is none.  [suffix] and
    [stem] cut the name at its last dot, provided that dot is neither the
    first nor the last character of the name ([0 < i < len(name) - 1] in
    [pathlib]). *)

Module Path.

Definition keep_component (x : string) : bool :=
  negb (String.eqb x "") && negb (String.eqb x ".").

Definition components (p : string) : list string :=
  filter (λ x, Is_true (keep_component x)) (Str.split_sep p).

Definition root (p : string) : string :=
  match p with
  | String c _ =>
      if Ascii.eqb c Str.slash then
        if String.length p - String.length (Str.lstrip_sep p) =? 2
        then "//" else "/"
      else ""
  | EmptyString => ""
  end.

Definition parts (p : string) : list string :=
  (if String.eqb (root p) "" then [] else [root p]) ++ components p.

Definition name (p : string) : string := default "" (last (components p)).

Definition has_suffix_at (i : nat) (nm : string) : bool :=
  (0 <? i) && (i <? String.length nm - 1).

Definition suffix (p : string) : string :=
  let nm := name p in
  match Str.rfind Str.dot nm with
  | Some i => if has_suffix_at i nm then Str.drop i nm else ""
  | None => ""
  end.

Definition stem (p : string) : string :=
  let nm := name p in
  match Str.rfind Str.dot nm with
  | Some i => if has_suffix_at i nm then Str.take i nm else nm
  | None => nm
  end.

End Path.

(** ** Data *)

(** A raw record of the CTAN package list. *)
Record ctan_record := CtanRecord { key : string; caption : string }.

(** A table entry, the dictionary [{command, detail, documentation}]. *)
Record entry := Entry { command : string; detail : string; documentation : string }.

Definition set_command (e : entry) (c : string) : entry :=
  {| command := c; detail := detail e; documentation := documentation e |}.

(** The local variables of the loop of [load_texmfbd]. *)
Record parser_state := ParserState {
  lsRdb : gmap string (list string);
  pkg : option string;
  pkgfiles : list string;
  allfiles : list string
}.

(** ** The functions of the script *)

(** [k in d] for a dictionary [d], given [d.get(k)]. *)
Definition is_Some_b {A} (o : option A) : bool :=
  match o with Some _ => true | None => false end.

(** [for part in reversed(parts): if part in allpkgs: pkg = part; break] *)
Fixpoint first_known (ctanDict : gmap string entry) (l : list string) : option string :=
  match l with
  | [] => None
  | part :: l' => if is_Some_b (ctanDict !! part) then Some part else first_known ctanDict l'
  end.

(** The package of a header line: the parts of [Path(line[0:-1])], the
    innermost first. *)
Definition find_pkg (ctanDict : gmap string entry) (line : string) : option string :=
  first_known ctanDict (reverse (Path.parts (Str.drop_last line))).

(** [line.startswith('./doc') or line.startswith('./source')] *)
Definition skipped (line : string) : bool :=
  Str.startswith "./doc" line || Str.startswith "./source" line.

(** [line.endswith(':') and line.startswith('./')] *)
Definition opens_block (line : string) : bool :=
  Str.endswith ":" line && Str.startswith "./" line.

(** [Path(line).suffix in ['.sty', '.def', '.cls']] *)
Definition wanted_suffix (line : string) : bool :=
  bool_decide (Path.suffix line ∈ [".sty"; ".def"; ".cls"]).

(** The end of the loop body, reached when a package [p] is current: a
    line that is not empty is a file, kept if it has one of the three
    extensions; an empty line closes the block, whose files, if any, are
    appended to those of [p] in [lsRdb]. *)
Definition collect (p : string) (line : string) (st : parser_state) : parser_state :=
  if negb (String.eqb line "") then
    if wanted_suffix line then
      {| lsRdb := lsRdb st; pkg := Some p;
         pkgfiles := pkgfiles st ++ [Path.name line];
         allfiles := allfiles st ++ [Path.name line] |}
    else
      {| lsRdb := lsRdb st; pkg := Some p;
         pkgfiles := pkgfiles st; allfiles := allfiles st |}
  else
    {| lsRdb := match pkgfiles st with
                | [] => lsRdb st
                | _ :: _ => <[p := default [] (lsRdb st !! p) ++ pkgfiles st]> (lsRdb st)
                end;
       pkg := None;
       pkgfiles := pkgfiles st;
       allfiles := allfiles st |}.

(** [if line.endswith(':') and line.startswith('./')]: a new block is
    entered, the package of its directory is looked up and the list of
    the files of the block is emptied. *)
Definition enter (ctanDict : gmap string entry) (line : string) (st : parser_state)
  : parser_state :=
  if opens_block line then
    {| lsRdb := lsRdb st; pkg := find_pkg ctanDict line;
       pkgfiles := []; allfiles := allfiles st |}
  else st.

(** One iteration of [for line in fd]. *)
Definition step (ctanDict : gmap string entry) (st : parser_state) (raw : string)
  : parser_state :=
  let line := Str.rstrip_nl raw in
  if skipped line then st
  else
    let st1 := enter ctanDict line st in
    match pkg st1 with
    | None => st1
    | Some p => collect p line st1
    end.

(** The variables before the loop. *)
Definition init_state : parser_state :=
  {| lsRdb := ∅; pkg := None; pkgfiles := []; allfiles := [] |}.

Definition run (ctanDict : gmap string entry) (st : parser_state) (fd : list string)
  : parser_state :=
  foldl (step ctanDict) st fd.

(** [fd] is the sequence of lines the file iterator yields. *)
Definition load_texmfbd (fd : list string) (ctanDict : gmap string entry)
  : gmap string (list string) * list string :=
  let st := run ctanDict init_state fd in (lsRdb st, allfiles st).

(** [for f in files: if f.lower() == pkgname + '.sty': return Path(f).stem] *)
Fixpoint scan_files (pkgname : string) (files : list string) : option string :=
  match files with
  | [] => None
  | f :: files' =>
      if String.eqb (Str.lower f) (pkgname +:+ ".sty") then Some (Path.stem f)
      else scan_files pkgname files'
  end.

(** The main [.sty] file of a package, without its extension, or
    [None]. *)
Definition package2sty (pkgname : string) (lsRdb : gmap string (list string))
    (allsty : list string) : option string :=
  let styname := pkgname +:+ ".sty" in
  if bool_decide (styname ∈ allsty) then Some pkgname
  else match lsRdb !! pkgname with
       | Some files =>
           if bool_decide (pkgname +:+ ".sty" ∈ files) then Some pkgname
           else scan_files pkgname files
       | None => None
       end.

(** The entry of a class: detail and documentation come from the
    catalogue when the base name is one of its keys. *)
Definition class_entry (ctanDict : gmap string entry) (base : string) : entry :=
  match ctanDict !! base with
  | Some e => {| command := base; detail := detail e; documentation := documentation e |}
  | None => {| command := base; detail := ""; documentation := "" |}
  end.

Definition get_classes (all_lsR_files : list string) (ctanDict : gmap string entry)
  : gmap string entry :=
  foldl (λ class_data c,
           if negb (Str.endswith ".cls" c) then class_data
           else let base := Path.stem c in
                <[base := class_entry ctanDict base]> class_data)
        ∅ all_lsR_files.

(** [ctanDict[pkg].copy()] with its command replaced, for every key of
    the catalogue that [package2sty] resolves. *)
Definition get_packages (lsRdb : gmap string (list string)) (ctanDict : gmap string entry)
    (allsty : list string) : gmap string entry :=
  map_fold (λ pkg e package_data,
              match package2sty pkg lsRdb allsty with
              | Some basefile => <[pkg := set_command e basefile]> package_data
              | None => package_data
              end)
           ∅ ctanDict.

(** The dictionary [packages] after the call; it is updated in place. *)
Definition add_extra_packages (packages extra_packages : gmap string entry)
  : gmap string entry :=
  map_fold (λ pkg e packages,
              if is_Some_b (packages !! pkg) then packages
              else <[pkg := e]> packages)
           packages extra_packages.

Definition ctan_url : string := "https://ctan.org/pkg/".

Definition build_ctanDict (ctanList : list ctan_record) : gmap string entry :=
  foldl (λ ctanDict x,
           <[key x := {| command := key x;
                         detail := caption x;
                         documentation := ctan_url +:+ key x |}]> ctanDict)
        ∅ ctanList.

(** The body of the script: the catalogue and the lines of [ls-R] give
    the package table and the class table; the extra package names are
    then merged into the package table. *)
Definition main_packages (ctanList : list ctan_record) (fd : list string)
  : gmap string entry :=
  let ctanDict := build_ctanDict ctanList in
  let '(lsRdb, all_lsR_files) := load_texmfbd fd ctanDict in
  get_packages lsRdb ctanDict all_lsR_files.

Definition main_classes (ctanList : list ctan_record) (fd : list string)
  : gmap string entry :=
  let ctanDict := build_ctanDict ctanList in
  let '(lsRdb, all_lsR_files) := load_texmfbd fd ctanDict in
  get_classes all_lsR_files ctanDict.

Definition main (ctanList : list ctan_record) (fd : list string)
    (extra : gmap string entry) : gmap string entry * gmap string entry :=
  (add_extra_packages (main_packages ctanList fd) extra, main_classes ctanList fd).

(** ** Vocabulary for the statements *)

(** A line that passes the test on [./doc] and [./source] and opens a
    block. *)
Definition effective_header (line : string) : bool :=
  negb (skipped line) && opens_block line.

(** The names the loop appends while a package is active: those of the
    lines that are not skipped and carry one of the three extensions. *)
Definition collected (fd : list string) : list string :=
  Path.name <$>
    filter (λ line, Is_true (negb (skipped line) && wanted_suffix line))
           (Str.rstrip_nl <$> fd).

(** Two strings match without regard to case. *)
Definition ci_match (a b : string) : Prop := Str.lower a = Str.lower b.

(** The loop variables that decide what reaches [lsRdb]. *)
Definition same_attribution (s1 s2 : parser_state) : Prop :=
  lsRdb s1 = lsRdb s2 ∧ pkg s1 = pkg s2 ∧ pkgfiles s1 = pkgfiles s2.

(** What holds of the loop variables throughout a run. *)
Definition parser_inv (st : parser_state) : Prop :=
  lsRdb st !! "" = None ∧ pkg st ≠ Some "" ∧
  Forall (λ f, 5 ≤ String.length f) (allfiles st).

(** The index as its data model has it: a sequence of blocks, each a
    header line followed by file lines and closed by a blank line.  The
    lines are those the file iterator yields. *)
Record block := Block { header : string; files : list string }.

Definition block_lines (b : block) : list string :=
  header b :: files b ++ [String Str.nl ""].

Definition index_of (blocks : list block) : list string :=
  concat (block_lines <$> blocks).

Definition well_formed_block (b : block) : Prop :=
  opens_block (Str.rstrip_nl (header b)) = true
  ∧ Forall (λ raw, opens_block (Str.rstrip_nl raw) = false) (files b).


(** The entry [build_ctanDict] makes of a raw record. *)
Definition catalogue_entry (x : ctan_record) : entry :=
  {| command := key x; detail := caption x; documentation := ctan_url +:+ key x |}.

(** A line of text as the file iterator yields it, with its newline. *)
Definition ln (s : string) : string := s +:+ String Str.nl "".

(** ** Vocabulary for further properties *)

(** Text made of ASCII characters only.  On such text Python's
    [str.lower] changes the letters [A-Z] and nothing else, as
    [Str.lower] does. *)
Definition is_ascii (c : ascii) : bool := nat_of_ascii c <? 128.

Fixpoint ascii_text (s : string) : bool :=
  match s with
  | EmptyString => true
  | String c r => is_ascii c && ascii_text r
  end.

(** A base name as the parser collects them: no slash, one of the three
    extensions, and something before the extension. *)
Definition collected_name (f : string) : Prop :=
  Str.has_sep f = false ∧ 5 ≤ String.length f
  ∧ (Str.endswith ".sty" f = true ∨ Str.endswith ".def" f = true
     ∨ Str.endswith ".cls" f = true).

(** A name that is one directory or file name: not empty, no slash. *)
Definition simple_name (p : string) : Prop := Str.has_sep p = false ∧ p ≠ "".

(** The file [f] is listed under some package of [db]. *)
Definition attributed (db : gmap string (list string)) (f : string) : Prop :=
  ∃ p l, db !! p = Some l ∧ f ∈ l.

(** Two maps of file lists put together, the lists of a common key
    appended. *)
Definition merge_db (db1 db2 : gmap string (list string))
  : gmap string (list string) :=
  union_with (λ l1 l2, Some (l1 ++ l2)) db1 db2.

(** What the loop keeps true of the files: pending and attributed files
    are in the list of all files, and the names in that list are base
    names with one of the three extensions. *)
Definition files_inv (st : parser_state) : Prop :=
  (∀ f, f ∈ pkgfiles st → f ∈ allfiles st)
  ∧ (∀ f, attributed (lsRdb st) f → f ∈ allfiles st)
  ∧ Forall collected_name (allfiles st).

(** What the loop keeps true of the packages: the current package and
    the keys of [lsRdb] are keys of the catalogue and simple names, and
    no key of [lsRdb] has an empty list. *)
Definition keys_inv (ctanDict : gmap string entry) (st : parser_state) : Prop :=
  (∀ p, pkg st = Some p → is_Some (ctanDict !! p) ∧ simple_name p)
  ∧ (∀ p l, lsRdb st !! p = Some l →
            is_Some (ctanDict !! p) ∧ simple_name p ∧ l ≠ []).

(** Every collected file is attributed, or pending for the current
    package. *)
Definition attributed_inv (st : parser_state) : Prop :=
  ∀ f, f ∈ allfiles st →
       attributed (lsRdb st) f ∨ (is_Some (pkg st) ∧ f ∈ pkgfiles st).

(** Two runs of the loop, one started after lines that gave [db0] and
    [all0] and left no package current, the other started afresh. *)
Definition resumed (db0 : gmap string (list string)) (all0 : list string)
    (st st' : parser_state) : Prop :=
  lsRdb st = merge_db db0 (lsRdb st')
  ∧ pkg st = pkg st'
  ∧ (is_Some (pkg st) → pkgfiles st = pkgfiles st')
  ∧ allfiles st = all0 ++ allfiles st'.

(** ** Facts about the string methods *)

Module StrFacts.
Import Str.

Lemma length_append (a b : string) :
  String.length (a +:+ b) = String.length a + String.length b.
Proof. induction a as [|x a IH]; simpl; [done | by rewrite IH]. Qed.

Lemma append_eq_nil (a b : string) : a +:+ b = "" → a = "" ∧ b = "".
Proof. destruct a; simpl; [done | discriminate]. Qed.

Lemma append_inv_r (a b s : string) : a +:+ s = b +:+ s → a = b.
Proof.
  revert b. induction a as [|x a IH]; intros [|y b] H; simpl in H.
  - done.
  - apply (f_equal String.length) in H. simpl in H.
    rewrite length_append in H. lia.
  - apply (f_equal String.length) in H. simpl in H.
    rewrite length_append in H. lia.
  - injection H as -> H. f_equal. by apply IH.
Qed.

Lemma endswith_unfold (suf s : string) :
  endswith suf s =
    if String.eqb s suf then true
    else match s with
         | EmptyString => false
         | String _ r => endswith suf r
         end.
Proof. by destruct s. Qed.

Lemma endswith_refl (suf : string) : endswith suf suf = true.
Proof. by rewrite endswith_unfold, String.eqb_refl. Qed.

Lemma endswith_app (a suf : string) : endswith suf (a +:+ suf) = true.
Proof.
  induction a as [|c a IH]; [apply endswith_refl|].
  change (String c a +:+ suf) with (String c (a +:+ suf)).
  rewrite endswith_unfold, IH. by destruct (String.eqb _ _).
Qed.

Lemma endswith_inv (suf s : string) :
  endswith suf s = true → ∃ a, s = a +:+ suf.
Proof.
  induction s as [|c s IH]; rewrite endswith_unfold.
  - destruct (String.eqb_spec "" suf) as [<-|]; [|done]. by exists "".
  - destruct (String.eqb_spec (String c s) suf) as [<-|].
    + by exists "".
    + intros [a ->]%IH. by exists (String c a).
Qed.


Lemma split_sep_nosep (s : string) : has_sep s = false → split_sep s = [s].
Proof.
  induction s as [|c s IH]; simpl; [done|].
  intros [Hc Hs]%orb_false_elim. rewrite Hc, IH; done.
Qed.

(** Appending text without a slash extends the last piece only. *)
Lemma split_sep_app_nosep (a s : string) :
  has_sep s = false →
  ∃ l x, split_sep a = l ++ [x] ∧ split_sep (a +:+ s) = l ++ [x +:+ s].
Proof.
  intros Hs. induction a as [|c a (l & x & Ha & Has)]; simpl.
  - exists [], "". by rewrite split_sep_nosep.
  - rewrite Ha, Has. destruct (Ascii.eqb c slash).
    + by exists ("" :: l), x.
    + destruct l as [|h t]; simpl.
      * by exists [], (String c x).
      * by exists (String c h :: t), x.
Qed.

Lemma take_nil_inv (n : nat) (s : string) : 0 < n → take n s = "" → s = "".
Proof. destruct n, s; simpl; try done; lia. Qed.

Lemma drop_app_le (n : nat) (a b : string) :
  n ≤ String.length a → drop n (a +:+ b) = drop n a +:+ b.
Proof.
  revert a. induction n as [|n IH]; intros [|c a]; simpl; try done; try lia.
  intros ?. apply IH. lia.
Qed.

Lemma length_drop (n : nat) (s : string) :
  String.length (drop n s) = String.length s - n.
Proof. revert s. induction n as [|n IH]; intros [|c s]; simpl; auto. Qed.

Lemma lower_ascii_slash (c : ascii) :
  Ascii.eqb (lower_ascii c) slash = Ascii.eqb c slash.
Proof. by destruct c as [[] [] [] [] [] [] [] []]. Qed.

Lemma has_sep_lower (s : string) : has_sep (lower s) = has_sep s.
Proof.
  induction s as [|c s IH]; simpl; [done|].
  by rewrite lower_ascii_slash, IH.
Qed.

Lemma length_lower (s : string) : String.length (lower s) = String.length s.
Proof. induction s as [|c s IH]; simpl; [done | by rewrite IH]. Qed.

Lemma lower_app (a b : string) : lower (a +:+ b) = lower a +:+ lower b.
Proof. induction a as [|c a IH]; simpl; [done | by rewrite IH]. Qed.

Lemma lower_app_inv (s a b : string) :
  lower s = a +:+ b → ∃ s1 s2, s = s1 +:+ s2 ∧ lower s1 = a ∧ lower s2 = b.
Proof.
  revert s. induction a as [|c a IH]; intros s; simpl.
  - intros ?. by exists "", s.
  - destruct s as [|d s]; simpl; [done|].
    intros [= Hd (s1 & s2 & -> & <- & <-)%IH].
    exists (String d s1), s2. by rewrite <- Hd.
Qed.

Lemma lower_ascii_idemp (c : ascii) : lower_ascii (lower_ascii c) = lower_ascii c.
Proof. by destruct c as [[] [] [] [] [] [] [] []]. Qed.

Lemma lower_idemp (s : string) : lower (lower s) = lower s.
Proof.
  induction s as [|c s IH]; simpl; [done|].
  by rewrite lower_ascii_idemp, IH.
Qed.

End StrFacts.

(** ** Facts about paths *)

Module PathFacts.
Import Str StrFacts Path.

Lemma keep_component_app (x s : string) :
  s ≠ "" → s ≠ "." → keep_component (x +:+ s) = true.
Proof.
  intros Hs Hd. unfold keep_component.
  destruct (String.eqb_spec (x +:+ s) "") as [[_ ?]%append_eq_nil|_]; [done|].
  destruct (String.eqb_spec (x +:+ s) ".") as [He|_]; [|done].
  destruct x as [|c x]; simpl in He; [done|].
  injection He as _ [_ ?]%append_eq_nil. done.
Qed.

(** The name of a path that ends in text without a slash ends in that
    text. *)
Lemma name_app_nosep (a s : string) :
  has_sep s = false → s ≠ "" → s ≠ "." → ∃ x, name (a +:+ s) = x +:+ s.
Proof.
  intros Hsep Hs Hd.
  destruct (split_sep_app_nosep a s Hsep) as (l & x & _ & Hsplit).
  exists x. unfold name, components. rewrite Hsplit, filter_app.
  rewrite filter_cons_True by (by rewrite keep_component_app).
  by rewrite filter_nil, last_snoc.
Qed.

Lemma stem_nil (p : string) : stem p = "" → name p = "".
Proof.
  unfold stem. destruct (rfind dot (name p)) as [i|]; [|done].
  unfold has_suffix_at. destruct (Nat.ltb_spec 0 i); simpl; [|done].
  destruct (i <? _); [|done]. by apply take_nil_inv.
Qed.

Lemma suffix_cases (p : string) :
  suffix p = "" ∨
  ∃ i, 0 < i ∧ i < String.length (name p) - 1 ∧ suffix p = drop i (name p).
Proof.
  unfold suffix. destruct (rfind dot (name p)) as [i|]; [|by left].
  unfold has_suffix_at.
  destruct (Nat.ltb_spec 0 i); simpl; [|by left].
  destruct (Nat.ltb_spec i (String.length (name p) - 1)); [|by left].
  right. by exists i.
Qed.

Lemma wanted_suffix_length (sfx : string) :
  sfx ∈ [".sty"; ".def"; ".cls"] → String.length sfx = 4.
Proof. intros H. set_unfold in H. by destruct H as [->|[->|[->|[]]]]. Qed.

(** A file name that is collected is longer than its extension. *)
Lemma wanted_name_long (line : string) :
  suffix line ∈ [".sty"; ".def"; ".cls"] → 5 ≤ String.length (name line).
Proof.
  intros Hin. pose proof (wanted_suffix_length _ Hin) as Hlen.
  destruct (suffix_cases line) as [He|(i & Hi & Hlt & He)].
  - by rewrite He in Hlen.
  - rewrite He, length_drop in Hlen. lia.
Qed.

(** The header of a block is never taken for a file of the block. *)
Lemma header_suffix (line : string) :
  endswith ":" line = true → suffix line ∉ [".sty"; ".def"; ".cls"].
Proof.
  intros [a ->]%endswith_inv Hin.
  destruct (name_app_nosep a ":") as [x Hx]; [done..|].
  destruct (suffix_cases (a +:+ ":")) as [He|(i & Hi & Hlt & He)].
  - rewrite He in Hin. set_unfold in Hin. by destruct Hin as [?|[?|[?|[]]]].
  - rewrite Hx in He, Hlt. rewrite length_append in Hlt. simpl in Hlt.
    rewrite drop_app_le in He by lia.
    assert (endswith ":" (suffix (a +:+ ":")) = true) as Hend
      by (rewrite He; apply endswith_app).
    set_unfold in Hin. by destruct Hin as [Hs|[Hs|[Hs|[]]]]; rewrite Hs in Hend.
Qed.

Lemma components_nonempty (p x : string) : x ∈ components p → x ≠ "".
Proof.
  unfold components. intros [Hk _]%list_elem_of_filter ->. done.
Qed.

Lemma root_cases (p : string) : root p = "" ∨ root p = "/" ∨ root p = "//".
Proof.
  unfold root. destruct p as [|c p]; [by left|].
  destruct (Ascii.eqb c slash); [|by left].
  destruct (_ =? 2); auto.
Qed.

Lemma parts_nonempty (p x : string) : x ∈ parts p → x ≠ "".
Proof.
  unfold parts. intros [Hr|Hc]%elem_of_app; [|by eapply components_nonempty].
  intros ->.
  destruct (root_cases p) as [Hp|[Hp|Hp]]; rewrite Hp in Hr; simpl in Hr;
    by apply list_elem_of_In in Hr; simpl in Hr; intuition discriminate.
Qed.

Lemma name_endswith_cls (c : string) : endswith ".cls" c = true → name c ≠ "".
Proof.
  intros [a ->]%endswith_inv.
  destruct (name_app_nosep a ".cls") as [x ->]; [done..|].
  by intros [_ ?]%append_eq_nil.
Qed.

Lemma name_lower_sty (f p : string) : lower f = p +:+ ".sty" → name f ≠ "".
Proof.
  intros (f1 & f2 & -> & _ & Hf2)%lower_app_inv.
  assert (has_sep f2 = false) as Hsep by (by rewrite <- has_sep_lower, Hf2).
  assert (String.length f2 = 4) as Hlen by (by rewrite <- length_lower, Hf2).
  destruct (name_app_nosep f1 f2) as [x ->]; [done| | |].
  - by intros ->.
  - by intros ->.
  - intros [_ ->]%append_eq_nil. done.
Qed.

Lemma stem_lower_sty (f p : string) : lower f = p +:+ ".sty" → stem f ≠ "".
Proof. intros H Hs%stem_nil. by eapply name_lower_sty. Qed.

Lemma stem_endswith_cls (c : string) : endswith ".cls" c = true → stem c ≠ "".
Proof. intros H Hs%stem_nil. by eapply name_endswith_cls. Qed.

End PathFacts.

(** ** Facts about the loop of [load_texmfbd] *)

Section parser.
Context (ctanDict : gmap string entry).
Implicit Types (st : parser_state) (raw line p : string) (fd : list string).
Import Str StrFacts Path PathFacts.

Lemma first_known_Some (l : list string) p :
  first_known ctanDict l = Some p ↔
  ∃ inner outer, l = inner ++ p :: outer ∧ is_Some (ctanDict !! p) ∧
                 ∀ q, q ∈ inner → ctanDict !! q = None.
Proof.
  induction l as [|x l IH]; simpl.
  - split; [done|]. intros (inner & outer & H & _). by destruct inner.
  - destruct (ctanDict !! x) as [e|] eqn:Hx; simpl.
    + split.
      * intros [= <-]. exists [], l. rewrite Hx. split_and!; [done|by eexists|].
        intros q Hq. by apply elem_of_nil in Hq.
      * intros ([|y inner] & outer & H & Hp & Hinner); simplify_eq/=; [done|].
        specialize (Hinner y (list_elem_of_here _ _)). congruence.
    + rewrite IH. split.
      * intros (inner & outer & -> & Hp & Hinner).
        exists (x :: inner), outer. split_and!; [done..|].
        intros q [->|Hq]%elem_of_cons; auto.
      * intros ([|y inner] & outer & H & Hp & Hinner); simplify_eq/=.
        -- rewrite Hx in Hp. by destruct Hp.
        -- exists inner, outer. split_and!; [done..|].
           intros q Hq. apply Hinner. by right.
Qed.

Lemma first_known_None (l : list string) :
  first_known ctanDict l = None ↔ ∀ q, q ∈ l → ctanDict !! q = None.
Proof.
  induction l as [|x l IH]; simpl.
  - split; [|done]. intros _ q Hq. by apply elem_of_nil in Hq.
  - destruct (ctanDict !! x) as [e|] eqn:Hx; simpl.
    + split; [done|]. intros H. specialize (H x (list_elem_of_here _ _)). congruence.
    + rewrite IH. split.
      * intros H q [->|Hq]%elem_of_cons; auto.
      * intros H q Hq. apply H. by right.
Qed.

Lemma find_pkg_nonempty line : find_pkg ctanDict line ≠ Some "".
Proof.
  unfold find_pkg. intros (inner & outer & Hrev & _)%first_known_Some.
  apply (parts_nonempty (drop_last line) ""); [|done].
  apply elem_of_reverse. rewrite Hrev. apply elem_of_app. right. by left.
Qed.

Lemma effective_header_true line :
  effective_header line = true ↔ skipped line = false ∧ opens_block line = true.
Proof.
  unfold effective_header.
  destruct (skipped line), (opens_block line); simpl; intuition congruence.
Qed.

Lemma effective_header_false line :
  effective_header line = false ↔ skipped line = true ∨ opens_block line = false.
Proof.
  unfold effective_header.
  destruct (skipped line), (opens_block line); simpl; intuition congruence.
Qed.

Lemma opens_block_nonempty line : opens_block line = true → line ≠ "".
Proof. by intros H ->. Qed.

Lemma step_skipped st raw :
  skipped (rstrip_nl raw) = true → step ctanDict st raw = st.
Proof. unfold step. by intros ->. Qed.

Lemma step_header st raw :
  effective_header (rstrip_nl raw) = true →
  step ctanDict st raw =
    {| lsRdb := lsRdb st; pkg := find_pkg ctanDict (rstrip_nl raw);
       pkgfiles := []; allfiles := allfiles st |}.
Proof.
  intros [Hskip Hopen]%effective_header_true.
  unfold step, enter. rewrite Hskip, Hopen. simpl.
  destruct (find_pkg ctanDict (rstrip_nl raw)) as [p|]; [|done].
  unfold collect.
  destruct (String.eqb_spec (rstrip_nl raw) "") as [He|_].
  { by apply opens_block_nonempty in Hopen. }
  simpl. unfold wanted_suffix. rewrite bool_decide_eq_false_2; [done|].
  apply header_suffix. unfold opens_block in Hopen.
  by apply andb_true_iff in Hopen as [? _].
Qed.

Lemma step_idle st raw :
  pkg st = None → effective_header (rstrip_nl raw) = false →
  step ctanDict st raw = st.
Proof.
  intros Hpkg [Hskip|Hopen]%effective_header_false; unfold step, enter.
  - by rewrite Hskip.
  - rewrite Hopen, Hpkg. by destruct (skipped _).
Qed.

Lemma run_idle st fd :
  pkg st = None →
  Forall (λ raw, effective_header (rstrip_nl raw) = false) fd →
  run ctanDict st fd = st.
Proof.
  intros Hpkg Hfd. induction Hfd as [|raw fd Hraw _ IH]; [done|].
  unfold run in *. simpl. by rewrite step_idle.
Qed.

Lemma step_blank st raw : rstrip_nl raw = "" → pkg (step ctanDict st raw) = None.
Proof.
  intros He. unfold step, enter, collect. rewrite He. simpl.
  by destruct (pkg st) eqn:Hp.
Qed.

Lemma collected_cons raw fd : collected (raw :: fd) = collected [raw] ++ collected fd.
Proof.
  unfold collected. simpl. rewrite !filter_cons, filter_nil.
  by destruct (decide _).
Qed.

Lemma collected_one raw :
  collected [raw] =
    if negb (skipped (rstrip_nl raw)) && wanted_suffix (rstrip_nl raw)
    then [name (rstrip_nl raw)] else [].
Proof.
  unfold collected. simpl. rewrite filter_cons, filter_nil.
  destruct (negb _ && _); by destruct (decide _).
Qed.

Lemma step_file st raw p :
  pkg st = Some p → rstrip_nl raw ≠ "" →
  effective_header (rstrip_nl raw) = false →
  step ctanDict st raw =
    {| lsRdb := lsRdb st; pkg := Some p;
       pkgfiles := pkgfiles st ++ collected [raw];
       allfiles := allfiles st ++ collected [raw] |}.
Proof.
  intros Hpkg Hne Hhdr. rewrite collected_one. unfold step, enter.
  destruct (skipped (rstrip_nl raw)) eqn:Hskip; simpl.
  { rewrite !app_nil_r. destruct st; simpl in *; by subst. }
  apply effective_header_false in Hhdr as [?|Hopen]; [congruence|].
  rewrite Hopen, Hpkg. unfold collect.
  destruct (String.eqb_spec (rstrip_nl raw) ""); [done|]. simpl.
  destruct (wanted_suffix _); [done|].
  rewrite !app_nil_r. destruct st; simpl in *; by subst.
Qed.

Lemma run_files st fd p :
  pkg st = Some p →
  Forall (λ raw, rstrip_nl raw ≠ "" ∧ effective_header (rstrip_nl raw) = false) fd →
  run ctanDict st fd =
    {| lsRdb := lsRdb st; pkg := Some p;
       pkgfiles := pkgfiles st ++ collected fd;
       allfiles := allfiles st ++ collected fd |}.
Proof.
  intros Hpkg Hfd. revert st Hpkg.
  induction Hfd as [|raw fd [Hne Hhdr] _ IH]; intros st Hpkg.
  - unfold collected. simpl. rewrite !app_nil_r. destruct st; simpl in *; by subst.
  - unfold run in *. simpl. rewrite (step_file st raw p), IH by done.
    simpl. by rewrite (collected_cons raw fd), !(assoc_L (++)).
Qed.

Lemma step_lsRdb_nonblank st raw :
  rstrip_nl raw ≠ "" → lsRdb (step ctanDict st raw) = lsRdb st.
Proof.
  intros Hne. unfold step, enter, collect.
  destruct (skipped _); [done|].
  destruct (String.eqb_spec (rstrip_nl raw) ""); [done|].
  destruct (opens_block _); simpl;
    repeat (match goal with |- context [match ?x with _ => _ end] => destruct x end; simpl);
    done.
Qed.

Lemma run_lsRdb_nonblank st fd :
  Forall (λ raw, rstrip_nl raw ≠ "") fd → lsRdb (run ctanDict st fd) = lsRdb st.
Proof.
  intros Hfd. revert st. induction Hfd as [|raw fd Hne _ IH]; intros st; [done|].
  unfold run in *. simpl. by rewrite IH, step_lsRdb_nonblank.
Qed.

Lemma step_same_attribution (s1 s2 : parser_state) raw :
  same_attribution s1 s2 →
  same_attribution (step ctanDict s1 raw) (step ctanDict s2 raw).
Proof.
  intros (Hdb & Hpkg & Hfiles).
  destruct s1 as [db1 p1 f1 a1], s2 as [db2 p2 f2 a2]; simpl in *; subst.
  unfold step, enter, collect, same_attribution.
  destruct (skipped _); [done|].
  destruct (opens_block _); simpl.
  - destruct (find_pkg _ _); [|done].
    destruct (negb _); [|done].
    by destruct (wanted_suffix _).
  - destruct p2; [|done].
    destruct (negb _); [|done].
    by destruct (wanted_suffix _).
Qed.

Lemma run_same_attribution (s1 s2 : parser_state) fd :
  same_attribution s1 s2 →
  same_attribution (run ctanDict s1 fd) (run ctanDict s2 fd).
Proof.
  revert s1 s2. induction fd as [|raw fd IH]; intros s1 s2 H; [done|].
  unfold run in *. simpl. by apply IH, step_same_attribution.
Qed.

Lemma run_cons st raw fd :
  run ctanDict st (raw :: fd) = run ctanDict (step ctanDict st raw) fd.
Proof. done. Qed.

Lemma run_nil st : run ctanDict st [] = st.
Proof. done. Qed.

Lemma run_app st fd1 fd2 :
  run ctanDict st (fd1 ++ fd2) = run ctanDict (run ctanDict st fd1) fd2.
Proof. unfold run. apply foldl_app. Qed.

Lemma step_inv st raw : parser_inv st → parser_inv (step ctanDict st raw).
Proof.
  intros (Hdb & Hpkg & Hall). unfold step.
  destruct (skipped _); [done|].
  assert (parser_inv (enter ctanDict (rstrip_nl raw) st)) as Hinv1.
  { unfold enter. destruct (opens_block _); [|done].
    split_and!; simpl; [done|apply find_pkg_nonempty|done]. }
  destruct (pkg (enter ctanDict (rstrip_nl raw) st)) as [p|] eqn:Hp; [|done].
  destruct Hinv1 as (Hdb1 & Hpkg1 & Hall1). rewrite Hp in Hpkg1.
  unfold collect. destruct (negb _).
  - destruct (wanted_suffix _) eqn:Hw; split_and!; simpl; try done.
    apply Forall_app. split; [done|]. apply Forall_singleton.
    apply wanted_name_long. unfold wanted_suffix in Hw.
    by apply bool_decide_eq_true in Hw.
  - split_and!; simpl; try done.
    destruct (pkgfiles _); [done|].
    rewrite lookup_insert_ne; [done|]. by intros ->.
Qed.

Lemma run_inv st fd : parser_inv st → parser_inv (run ctanDict st fd).
Proof.
  revert st. induction fd as [|raw fd IH]; intros st H; [done|].
  unfold run in *. simpl. by apply IH, step_inv.
Qed.

Lemma init_inv : parser_inv init_state.
Proof. split_and!; simpl; [apply lookup_empty|done|constructor]. Qed.

End parser.

(** ** The catalogue loader *)

Section catalogue.
Implicit Types (ctanList : list ctan_record) (x : ctan_record).

Lemma build_ctanDict_snoc ctanList x :
  build_ctanDict (ctanList ++ [x]) =
    <[key x := catalogue_entry x]> (build_ctanDict ctanList).
Proof. unfold build_ctanDict. by rewrite foldl_app. Qed.

(** Every entry of the table comes from a record of the list. *)
Lemma build_ctanDict_lookup_Some ctanList (k : string) (e : entry) :
  build_ctanDict ctanList !! k = Some e →
  ∃ x, x ∈ ctanList ∧ key x = k ∧ e = catalogue_entry x.
Proof.
  induction ctanList as [|x l IH] using rev_ind; [done|].
  rewrite build_ctanDict_snoc.
  destruct (decide (key x = k)) as [<-|Hne].
  - rewrite lookup_insert_eq. intros [= <-]. exists x.
    split; [|done]. apply elem_of_app. right. by left.
  - rewrite lookup_insert_ne by done. intros (y & Hy & ? & ?)%IH.
    exists y. split; [|done]. apply elem_of_app. by left.
Qed.

(** The record that is last among those of its key decides the entry. *)
Lemma build_ctanDict_last ctanList1 ctanList2 x :
  key x ∉ key <$> ctanList2 →
  build_ctanDict (ctanList1 ++ x :: ctanList2) !! key x = Some (catalogue_entry x).
Proof.
  induction ctanList2 as [|y l IH] using rev_ind; intros Hnot.
  - by rewrite build_ctanDict_snoc, lookup_insert_eq.
  - rewrite fmap_app in Hnot. apply not_elem_of_app in Hnot as [Hl Hy].
    rewrite app_comm_cons, (assoc_L (++)), build_ctanDict_snoc.
    rewrite lookup_insert_ne; [by apply IH|].
    intros Heq. apply Hy. rewrite <- Heq. by left.
Qed.

End catalogue.

(** C10.  The catalogue loader maps the key [k] of every raw record to
    [{command: k, documentation: "https://ctan.org/pkg/" + k, detail: c}],
    [c] being the caption of the record: this is the entry the loop stores
    when it reaches the record, and, the keys of a catalogue being unique,
    the entry the table holds at the end (in a list that repeats a key,
    the entry of the last record of that key).  Whatever the list, the
    documentation of every loaded key [k] is ["https://ctan.org/pkg/" + k]
    and its command is [k]. *)
Theorem build_ctanDict_spec (ctanList : list ctan_record) :
  (∀ x, build_ctanDict (ctanList ++ [x]) =
          <[key x := {| command := key x; detail := caption x;
                        documentation := "https://ctan.org/pkg/" +:+ key x |}]>
            (build_ctanDict ctanList))
  ∧ (∀ x, x ∈ ctanList → NoDup (key <$> ctanList) →
          build_ctanDict ctanList !! key x =
            Some {| command := key x; detail := caption x;
                    documentation := "https://ctan.org/pkg/" +:+ key x |})
  ∧ (∀ ctanList1 x ctanList2,
       ctanList = ctanList1 ++ x :: ctanList2 → key x ∉ key <$> ctanList2 →
       build_ctanDict ctanList !! key x =
         Some {| command := key x; detail := caption x;
                 documentation := "https://ctan.org/pkg/" +:+ key x |})
  ∧ (∀ k e, build_ctanDict ctanList !! k = Some e →
            documentation e = "https://ctan.org/pkg/" +:+ k ∧ command e = k).
Proof.
  split_and!.
  - apply build_ctanDict_snoc.
  - intros x (l1 & l2 & ->)%list_elem_of_split Hnodup.
    apply build_ctanDict_last.
    rewrite fmap_app, fmap_cons in Hnodup.
    apply NoDup_app in Hnodup as (_ & _ & Hnodup).
    by apply NoDup_cons in Hnodup as [? _].
  - intros l1 x l2 -> Hlast. by apply build_ctanDict_last.
  - intros k e (x & _ & <- & ->)%build_ctanDict_lookup_Some. done.
Qed.

Lemma build_ctanDict_spec_witness :
  build_ctanDict [CtanRecord "foo" "Foo package"; CtanRecord "bar" "Bar package"] !! "foo"
  = Some (Entry "foo" "Foo package" "https://ctan.org/pkg/foo").
Proof.
  apply (proj1 (proj2 (build_ctanDict_spec
                  [CtanRecord "foo" "Foo package"; CtanRecord "bar" "Bar package"]))
               (CtanRecord "foo" "Foo package")).
  - by left.
  - compute_done.
Defined.

(** ** The extras merger *)

Lemma add_extra_packages_union (packages extra_packages : gmap string entry) :
  add_extra_packages packages extra_packages = packages ∪ extra_packages.
Proof.
  unfold add_extra_packages.
  apply (map_fold_weak_ind (λ r m, r = packages ∪ m)).
  - by rewrite (right_id_L ∅ (∪)).
  - intros k e m r Hm ->.
    destruct (packages !! k) as [e'|] eqn:Hk.
    + rewrite (lookup_union_Some_l _ _ _ e') by done. simpl.
      apply map_eq. intros j. rewrite !lookup_union.
      destruct (decide (k = j)) as [<-|Hne].
      * by rewrite Hk, Hm, lookup_insert_eq.
      * by rewrite lookup_insert_ne.
    + rewrite lookup_union_r, Hm by done. simpl.
      by rewrite insert_union_r.
Qed.

(** C7.  The extras merger never overwrites: a key of both tables keeps
    the value it has in the package table, and a key of the extras that
    the package table lacks receives a copy of the extras record. *)
Theorem add_extra_packages_spec (packages extra_packages : gmap string entry) :
  (∀ k e, packages !! k = Some e →
          add_extra_packages packages extra_packages !! k = Some e)
  ∧ (∀ k e, packages !! k = None → extra_packages !! k = Some e →
            add_extra_packages packages extra_packages !! k = Some e).
Proof.
  rewrite add_extra_packages_union. split.
  - intros k e Hk. by apply lookup_union_Some_l.
  - intros k e Hk He. by rewrite lookup_union_r.
Qed.

Lemma add_extra_packages_spec_witness :
  add_extra_packages {[ "foo" := Entry "foo" "resolved" "u" ]}
                     {[ "foo" := Entry "foo" "extra" "v" ]} !! "foo"
  = Some (Entry "foo" "resolved" "u").
Proof.
  apply (proj1 (add_extra_packages_spec _ _)). reflexivity.
Defined.

(** ** The class extractor *)

Section classes.
Context (ctanDict : gmap string entry).
Implicit Types (l : list string) (c k : string).

Lemma get_classes_snoc l c :
  get_classes (l ++ [c]) ctanDict =
    if negb (Str.endswith ".cls" c) then get_classes l ctanDict
    else <[Path.stem c := class_entry ctanDict (Path.stem c)]> (get_classes l ctanDict).
Proof. unfold get_classes. by rewrite foldl_app. Qed.

Lemma get_classes_lookup_Some l k (e : entry) :
  get_classes l ctanDict !! k = Some e →
  e = class_entry ctanDict k ∧
  ∃ c, c ∈ l ∧ Str.endswith ".cls" c = true ∧ k = Path.stem c.
Proof.
  induction l as [|c l IH] using rev_ind; [done|].
  rewrite get_classes_snoc.
  assert (∀ c', c' ∈ l → c' ∈ l ++ [c]) as Hin
    by (intros c' ?; apply elem_of_app; by left).
  destruct (Str.endswith ".cls" c) eqn:Hc; simpl.
  - destruct (decide (Path.stem c = k)) as [<-|Hne].
    + rewrite lookup_insert_eq. intros [= <-]. split; [done|].
      exists c. split_and!; [|done..]. apply elem_of_app. right. by left.
    + rewrite lookup_insert_ne by done.
      intros [-> (c' & ? & ? & ?)]%IH. eauto 6.
  - intros [-> (c' & ? & ? & ?)]%IH. eauto 6.
Qed.

Lemma get_classes_elem l c :
  c ∈ l → Str.endswith ".cls" c = true →
  get_classes l ctanDict !! Path.stem c = Some (class_entry ctanDict (Path.stem c)).
Proof.
  induction l as [|c' l IH] using rev_ind; intros Hin Hc.
  { by apply elem_of_nil in Hin. }
  rewrite get_classes_snoc.
  destruct (Str.endswith ".cls" c') eqn:Hc'; simpl.
  - destruct (decide (Path.stem c' = Path.stem c)) as [->|Hne].
    + by rewrite lookup_insert_eq.
    + rewrite lookup_insert_ne by done. apply IH; [|done].
      apply elem_of_app in Hin as [?|Hin]; [done|].
      apply list_elem_of_singleton in Hin. by subst.
  - apply IH; [|done].
    apply elem_of_app in Hin as [?|Hin]; [done|].
    apply list_elem_of_singleton in Hin. congruence.
Qed.

Lemma get_classes_filter l :
  get_classes l ctanDict =
    get_classes (filter (λ c, Is_true (Str.endswith ".cls" c)) l) ctanDict.
Proof.
  induction l as [|c l IH] using rev_ind; [done|].
  rewrite filter_app, filter_cons, filter_nil.
  destruct (Str.endswith ".cls" c) eqn:Hc.
  - rewrite decide_True by done. rewrite !get_classes_snoc, Hc. simpl.
    by rewrite IH.
  - destruct (decide _) as [[]|_].
    by rewrite app_nil_r, get_classes_snoc, Hc.
Qed.

Lemma class_entry_eq k :
  class_entry ctanDict k =
    {| command := k;
       detail := default "" (detail <$> ctanDict !! k);
       documentation := default "" (documentation <$> ctanDict !! k) |}.
Proof. unfold class_entry. by destruct (ctanDict !! k). Qed.

End classes.

(** C6.  For every file name [c] of the list that ends in [.cls] the
    class extractor stores, under the stem of [c], the entry whose command
    is that stem and whose detail and documentation are those of the
    catalogue entry of the stem when there is one, and empty otherwise.
    File names that do not end in [.cls] contribute nothing: every key of
    the table is the stem of such a [c], and dropping the other names
    leaves the table unchanged.  The list [["article.cls"]] with no
    catalogue entry for [article] gives exactly the entry
    [{command: "article", detail: "", documentation: ""}] under
    [article]. *)
Theorem get_classes_spec (all_lsR_files : list string) (ctanDict : gmap string entry) :
  (∀ c, c ∈ all_lsR_files → Str.endswith ".cls" c = true →
        get_classes all_lsR_files ctanDict !! Path.stem c =
          Some {| command := Path.stem c;
                  detail := default "" (detail <$> ctanDict !! Path.stem c);
                  documentation :=
                    default "" (documentation <$> ctanDict !! Path.stem c) |})
  ∧ (∀ k e, get_classes all_lsR_files ctanDict !! k = Some e →
            ∃ c, c ∈ all_lsR_files ∧ Str.endswith ".cls" c = true ∧ k = Path.stem c)
  ∧ get_classes all_lsR_files ctanDict =
      get_classes (filter (λ c, Is_true (Str.endswith ".cls" c)) all_lsR_files) ctanDict
  ∧ (ctanDict !! "article" = None →
     get_classes ["article.cls"] ctanDict = {[ "article" := Entry "article" "" "" ]}).
Proof.
  split_and!.
  - intros c Hin Hc. rewrite <- class_entry_eq. by apply get_classes_elem.
  - intros k e He. by apply get_classes_lookup_Some in He as [_ ?].
  - apply get_classes_filter.
  - intros Hnone. unfold get_classes. simpl.
    change (Path.stem "article.cls") with "article".
    unfold class_entry. rewrite Hnone. by rewrite insert_empty.
Qed.

Lemma get_classes_spec_witness :
  get_classes ["article.cls"] (∅ : gmap string entry)
  = {[ "article" := Entry "article" "" "" ]}.
Proof.
  apply (proj2 (proj2 (proj2 (get_classes_spec [] ∅)))). reflexivity.
Defined.

(** ** The package resolver *)

Section resolver.
Context (lsRdb : gmap string (list string)) (allsty : list string).
Implicit Types (ctanDict : gmap string entry) (p f : string) (files : list string).



Lemma scan_files_Some p files (b : string) :
  scan_files p files = Some b →
  ∃ f, f ∈ files ∧ Str.lower f = p +:+ ".sty" ∧ b = Path.stem f.
Proof.
  induction files as [|g l IH]; simpl; [done|].
  destruct (String.eqb_spec (Str.lower g) (p +:+ ".sty")) as [He|Hne].
  - intros [= <-]. exists g. split_and!; [by left|done..].
  - intros (f & ? & ? & ?)%IH. exists f. split_and!; [by right|done..].
Qed.


Lemma get_packages_lookup ctanDict p :
  get_packages lsRdb ctanDict allsty !! p =
    e ← ctanDict !! p; set_command e <$> package2sty p lsRdb allsty.
Proof.
  unfold get_packages. revert p.
  apply (map_fold_weak_ind
           (λ r (m : gmap string entry),
              ∀ p, r !! p = e ← m !! p; set_command e <$> package2sty p lsRdb allsty)).
  - intros p. by rewrite !lookup_empty.
  - intros k e m r Hm IH p.
    destruct (decide (k = p)) as [<-|Hne].
    + rewrite lookup_insert_eq. simpl.
      destruct (package2sty k lsRdb allsty) as [b|]; simpl.
      * by rewrite lookup_insert_eq.
      * by rewrite IH, Hm.
    + rewrite (lookup_insert_ne m) by done. rewrite <- IH.
      destruct (package2sty k lsRdb allsty); [|done].
      by rewrite lookup_insert_ne.
Qed.

End resolver.



(** C2.  The code at the failing input.  The catalogue has the key
    [Foo]; the index has the block [./Foo:] with the file [foo.sty].
    [Foo.sty] is not in the list of all files, [Foo] has attributed
    files, [Foo.sty] is not among them, and [foo.sty] matches [Foo.sty]
    without regard to case, so that the command of [Foo] should be [foo],
    the stem of that file.  The file name is lower-cased and the key is
    not: [foo.sty] is compared with [Foo.sty], no file is found, and the
    package table has no [Foo]. *)
Lemma capital_key_is_dropped :
  let ctanDict := build_ctanDict [CtanRecord "Foo" "Foo package"] in
  let db := load_texmfbd (map ln ["./Foo:"; "foo.sty"; ""]) ctanDict in
  is_Some (ctanDict !! "Foo")
  ∧ ("Foo.sty" ∉ db.2)
  ∧ db.1 !! "Foo" = Some ["foo.sty"]
  ∧ ("Foo.sty" ∉ ["foo.sty"])
  ∧ ci_match "foo.sty" "Foo.sty"
  ∧ get_packages db.1 ctanDict db.2 !! "Foo" = None.
Proof.
  split_and!; [by eexists | compute_done | by vm_compute | compute_done
              | reflexivity | by vm_compute].
Qed.

(** The claim C3 as it is worded fails for a header the parser sets
    aside: [./doc/foo:] and [./docs/foo:] end in [:], start with [./] and
    have the part [foo], a key of the catalogue, yet the state is
    unchanged, no package becomes current, and the file [foo.sty] of the
    block [./docs/foo:] is not collected. *)
Lemma set_aside_header_sets_no_package :
  let ctanDict := build_ctanDict [CtanRecord "foo" "Foo package"] in
  opens_block "./doc/foo:" = true ∧ opens_block "./docs/foo:" = true
  ∧ find_pkg ctanDict "./doc/foo:" = Some "foo"
  ∧ find_pkg ctanDict "./docs/foo:" = Some "foo"
  ∧ pkg (step ctanDict init_state (ln "./doc/foo:")) = None
  ∧ pkg (step ctanDict init_state (ln "./docs/foo:")) = None
  ∧ load_texmfbd (map ln ["./docs/foo:"; "foo.sty"; ""]) ctanDict = (∅, []).
Proof. split_and!; vm_compute; reflexivity. Qed.

(** C3, as the code has it.  A line that ends in [:] and starts with
    [./], and that does not begin with the characters [./doc] or
    [./source], opens a block: the list of the files of the block is
    emptied and the current package becomes the first part of the
    directory path, read from the innermost part outwards, that is a key
    of the catalogue.  When no part is a key the current package is none,
    and the lines that follow, up to the next line that opens a block,
    leave the state as it is. *)
Theorem header_sets_package (ctanDict : gmap string entry) (st : parser_state)
    (raw : string) :
  skipped (Str.rstrip_nl raw) = false →
  Str.endswith ":" (Str.rstrip_nl raw) = true →
  Str.startswith "./" (Str.rstrip_nl raw) = true →
  step ctanDict st raw =
    {| lsRdb := lsRdb st; pkg := find_pkg ctanDict (Str.rstrip_nl raw);
       pkgfiles := []; allfiles := allfiles st |}
  ∧ (∀ p, find_pkg ctanDict (Str.rstrip_nl raw) = Some p ↔
          ∃ inner outer,
            reverse (Path.parts (Str.drop_last (Str.rstrip_nl raw))) = inner ++ p :: outer
            ∧ is_Some (ctanDict !! p)
            ∧ ∀ q, q ∈ inner → ctanDict !! q = None)
  ∧ (find_pkg ctanDict (Str.rstrip_nl raw) = None ↔
     ∀ q, q ∈ Path.parts (Str.drop_last (Str.rstrip_nl raw)) → ctanDict !! q = None)
  ∧ (find_pkg ctanDict (Str.rstrip_nl raw) = None →
     ∀ body, Forall (λ raw', effective_header (Str.rstrip_nl raw') = false) body →
             run ctanDict st (raw :: body) = step ctanDict st raw).
Proof.
  intros Hskip Hcolon Hroot.
  assert (effective_header (Str.rstrip_nl raw) = true) as Hhdr.
  { apply effective_header_true. split; [done|].
    unfold opens_block. by rewrite Hcolon, Hroot. }
  split_and!.
  - by apply step_header.
  - intros p. apply first_known_Some.
  - unfold find_pkg. rewrite first_known_None.
    split; intros H q Hq; apply H; by apply elem_of_reverse.
  - intros Hnone body Hbody.
    change (run ctanDict st (raw :: body))
      with (run ctanDict (step ctanDict st raw) body).
    apply run_idle; [|done]. by rewrite step_header, Hnone.
Qed.

Lemma header_sets_package_witness :
  step {[ "latex" := Entry "latex" "" ""; "foo" := Entry "foo" "" "" ]}
       init_state (ln "./tex/latex/foo:")
  = {| lsRdb := ∅; pkg := Some "foo"; pkgfiles := []; allfiles := [] |}.
Proof.
  refine (eq_trans (proj1 (header_sets_package
            {[ "latex" := Entry "latex" "" ""; "foo" := Entry "foo" "" "" ]}
            init_state (ln "./tex/latex/foo:") _ _ _)) _);
    vm_compute; reflexivity.
Defined.

(** The claim C4 as it is worded fails for a block whose header the
    parser sets aside: the directory of [./docs/zzz:] matches no key of
    the catalogue, but the header is skipped before any package is looked
    up, the package [foo] of the block left open before it stays current,
    and [bar.sty] and [baz.cls] reach both results. *)
Lemma set_aside_unmatched_block_is_collected :
  let ctanDict := build_ctanDict [CtanRecord "foo" "Foo package"] in
  let fd := map ln ["./foo:"; "foo.sty"; "./docs/zzz:"; "bar.sty"; "baz.cls"; ""] in
  opens_block "./docs/zzz:" = true
  ∧ find_pkg ctanDict "./docs/zzz:" = None
  ∧ load_texmfbd fd ctanDict
    = ({[ "foo" := ["foo.sty"; "bar.sty"; "baz.cls"] ]},
       ["foo.sty"; "bar.sty"; "baz.cls"]).
Proof. split_and!; vm_compute; reflexivity. Qed.

(** C4, as the code has it.  Collecting files is gated on a current
    package: a line read while no package is current changes neither
    [lsRdb] nor the list of all files.  A block whose header is not set
    aside (it does not begin with [./doc] or [./source]) and whose
    directory matches no key of the catalogue therefore contributes
    nothing: its header leaves no package current, the lines up to the
    next header change nothing, and the parser returns what it returns
    for the index without these lines. *)
Theorem unmatched_block_contributes_nothing (ctanDict : gmap string entry) :
  (∀ st raw,
     pkg (enter ctanDict (Str.rstrip_nl raw) st) = None →
     lsRdb (step ctanDict st raw) = lsRdb st
     ∧ allfiles (step ctanDict st raw) = allfiles st)
  ∧ (∀ st hdr body,
       effective_header (Str.rstrip_nl hdr) = true →
       find_pkg ctanDict (Str.rstrip_nl hdr) = None →
       Forall (λ raw, effective_header (Str.rstrip_nl raw) = false) body →
       run ctanDict st (hdr :: body) =
         {| lsRdb := lsRdb st; pkg := None; pkgfiles := []; allfiles := allfiles st |})
  ∧ (∀ pre hdr body rest,
       effective_header (Str.rstrip_nl hdr) = true →
       find_pkg ctanDict (Str.rstrip_nl hdr) = None →
       Forall (λ raw, effective_header (Str.rstrip_nl raw) = false) body →
       load_texmfbd (pre ++ hdr :: body ++ rest) ctanDict
       = load_texmfbd (pre ++ hdr :: rest) ctanDict).
Proof.
  assert (∀ st hdr body,
            effective_header (Str.rstrip_nl hdr) = true →
            find_pkg ctanDict (Str.rstrip_nl hdr) = None →
            Forall (λ raw, effective_header (Str.rstrip_nl raw) = false) body →
            run ctanDict st (hdr :: body) = step ctanDict st hdr) as Hblock.
  { intros st hdr body Hhdr Hnone Hbody.
    change (run ctanDict st (hdr :: body))
      with (run ctanDict (step ctanDict st hdr) body).
    apply run_idle; [|done]. by rewrite step_header, Hnone. }
  split_and!.
  - intros st raw Hnone. unfold step.
    destruct (skipped _); [done|]. rewrite Hnone.
    unfold enter. by destruct (opens_block _).
  - intros st hdr body Hhdr Hnone Hbody.
    by rewrite Hblock, step_header, Hnone.
  - intros pre hdr body rest Hhdr Hnone Hbody. unfold load_texmfbd.
    rewrite !run_app.
    change (hdr :: body ++ rest) with ((hdr :: body) ++ rest).
    rewrite run_app, Hblock by done.
    change (run ctanDict (run ctanDict init_state pre) (hdr :: rest))
      with (run ctanDict (step ctanDict (run ctanDict init_state pre) hdr) rest).
    done.
Qed.

Lemma unmatched_block_contributes_nothing_witness :
  load_texmfbd (map ln ["./foo:"; "foo.sty"; ""; "./bar:"; "bar.sty"; "baz.cls"; ""; "./foo/x:"; "x.def"; ""])
               {[ "foo" := Entry "foo" "" "" ]}
  = load_texmfbd (map ln ["./foo:"; "foo.sty"; ""; "./bar:"; "./foo/x:"; "x.def"; ""])
                 {[ "foo" := Entry "foo" "" "" ]}.
Proof.
  refine (proj2 (proj2 (unmatched_block_contributes_nothing
                          {[ "foo" := Entry "foo" "" "" ]}))
                (map ln ["./foo:"; "foo.sty"; ""]) (ln "./bar:")
                (map ln ["bar.sty"; "baz.cls"; ""])
                (map ln ["./foo/x:"; "x.def"; ""]) _ _ _).
  - vm_compute. reflexivity.
  - vm_compute. reflexivity.
  - repeat constructor.
Defined.



Section blocks.
Context (ctanDict : gmap string entry).
Implicit Types (b : block) (blocks : list block) (st : parser_state).

Lemma index_of_cons b blocks : index_of (b :: blocks) = block_lines b ++ index_of blocks.
Proof. done. Qed.

(** The blank line that closes a block leaves no package current. *)
Lemma run_block_pkg st b : pkg (run ctanDict st (block_lines b)) = None.
Proof.
  unfold block_lines. rewrite app_comm_cons, run_app, run_cons, run_nil.
  by apply step_blank.
Qed.



End blocks.





Lemma step_allfiles_prefix (ctanDict : gmap string entry) (st : parser_state)
    (raw : string) :
  allfiles st `prefix_of` allfiles (step ctanDict st raw).
Proof.
  unfold step, enter, collect.
  destruct (skipped _); [done|].
  destruct (opens_block _); simpl.
  - destruct (find_pkg _ _); [|done].
    destruct (negb _); [|done].
    destruct (wanted_suffix _); simpl; [by apply prefix_app_r|done].
  - destruct (pkg st); [|done].
    destruct (negb _); [|done].
    destruct (wanted_suffix _); simpl; [by apply prefix_app_r|done].
Qed.

Lemma run_allfiles_prefix (ctanDict : gmap string entry) (st : parser_state)
    (fd : list string) :
  allfiles st `prefix_of` allfiles (run ctanDict st fd).
Proof.
  revert st. induction fd as [|raw fd IH]; intros st; [done|].
  unfold run in *. simpl. etrans; [apply step_allfiles_prefix | apply IH].
Qed.

(** The claim C8 as it is worded fails when the header that follows the
    file lines is one the parser sets aside: [./source/foo:] comes right
    after [foo.sty], the pending list is kept, and the blank line that
    closes the [./source] block puts [foo.sty] in [lsRdb]. *)
Lemma set_aside_header_keeps_pending_files :
  let ctanDict := build_ctanDict [CtanRecord "foo" "Foo package"] in
  let fd := map ln ["./tex/foo:"; "foo.sty"; "./source/foo:"; "foo.dtx"; ""] in
  opens_block "./source/foo:" = true
  ∧ pkgfiles (run ctanDict init_state (map ln ["./tex/foo:"; "foo.sty"; "./source/foo:"]))
    = ["foo.sty"]
  ∧ (load_texmfbd fd ctanDict).1 = {[ "foo" := ["foo.sty"] ]}.
Proof. split_and!; vm_compute; reflexivity. Qed.

(** C8, as the code has it.  The files of a block reach [lsRdb] only at
    the blank line that closes the block: lines that are not blank leave
    [lsRdb] as it is.  Let a package be current after
    the lines [pre], and let [files] be lines that are neither blank nor
    headers.  Their names are appended to the list of all files as they
    are read, but [lsRdb] is as it was: if the input ends there, the map
    is that of [pre]; and if a header follows at once that the parser
    does not set aside (it does not begin with [./doc] or [./source]),
    the pending list is emptied and the map the parser returns is the one
    it returns without the lines [files], while their names stay in the
    list of all files. *)
Theorem unterminated_block_is_dropped (ctanDict : gmap string entry)
    (pre files : list string) (p : string) :
  pkg (run ctanDict init_state pre) = Some p →
  Forall (λ raw, Str.rstrip_nl raw ≠ ""
                 ∧ effective_header (Str.rstrip_nl raw) = false) files →
  (load_texmfbd (pre ++ files) ctanDict).1 = (load_texmfbd pre ctanDict).1
  ∧ (load_texmfbd (pre ++ files) ctanDict).2
    = (load_texmfbd pre ctanDict).2 ++ collected files
  ∧ (∀ tail,
       Forall (λ raw, Str.rstrip_nl raw ≠ "") tail →
       (load_texmfbd (pre ++ tail) ctanDict).1 = (load_texmfbd pre ctanDict).1)
  ∧ (∀ hdr,
       effective_header (Str.rstrip_nl hdr) = true →
       pkgfiles (run ctanDict init_state (pre ++ files ++ [hdr])) = []
       ∧ lsRdb (run ctanDict init_state (pre ++ files ++ [hdr]))
         = lsRdb (run ctanDict init_state pre))
  ∧ (∀ hdr rest,
       effective_header (Str.rstrip_nl hdr) = true →
       (load_texmfbd (pre ++ files ++ hdr :: rest) ctanDict).1
       = (load_texmfbd (pre ++ hdr :: rest) ctanDict).1
       ∧ ∀ f, f ∈ collected files →
              f ∈ (load_texmfbd (pre ++ files ++ hdr :: rest) ctanDict).2).
Proof.
  intros Hpkg Hfiles. unfold load_texmfbd. simpl.
  pose proof (run_files ctanDict _ files p Hpkg Hfiles) as Hrun.
  split_and!.
  - by rewrite run_app, Hrun.
  - by rewrite run_app, Hrun.
  - intros tail Htail. by rewrite run_app, run_lsRdb_nonblank.
  - intros hdr Hhdr. rewrite (assoc_L (++)), !run_app, Hrun.
    by rewrite run_cons, run_nil, step_header.
  - intros hdr rest Hhdr. rewrite !run_app, Hrun.
    rewrite !run_cons, !step_header by done. simpl. split.
    + by apply run_same_attribution.
    + intros f Hf. eapply elem_of_prefix; [|apply run_allfiles_prefix].
      simpl. apply elem_of_app. by right.
Qed.

Lemma unterminated_block_is_dropped_witness :
  (load_texmfbd (map ln ["./foo:"; "foo.sty"; ""; "./bar:"] ++ map ln ["bar.sty"; "bar.txt"])
                {[ "foo" := Entry "foo" "" ""; "bar" := Entry "bar" "" "" ]}).1
  = (load_texmfbd (map ln ["./foo:"; "foo.sty"; ""; "./bar:"])
                  {[ "foo" := Entry "foo" "" ""; "bar" := Entry "bar" "" "" ]}).1.
Proof.
  refine (proj1 (unterminated_block_is_dropped
                   {[ "foo" := Entry "foo" "" ""; "bar" := Entry "bar" "" "" ]}
                   (map ln ["./foo:"; "foo.sty"; ""; "./bar:"])
                   (map ln ["bar.sty"; "bar.txt"]) "bar" _ _)).
  - vm_compute. reflexivity.
  - repeat constructor; vm_compute; congruence.
Defined.

(** ** The tables of a whole run *)

Lemma load_texmfbd_inv (fd : list string) (ctanDict : gmap string entry) :
  (load_texmfbd fd ctanDict).1 !! "" = None
  ∧ Forall (λ f, 5 ≤ String.length f) (load_texmfbd fd ctanDict).2.
Proof.
  destruct (run_inv ctanDict init_state fd init_inv) as (? & _ & ?). done.
Qed.

Lemma package2sty_nonempty (lsRdb : gmap string (list string)) (allsty : list string)
    (p b : string) :
  lsRdb !! "" = None →
  Forall (λ f, 5 ≤ String.length f) allsty →
  package2sty p lsRdb allsty = Some b → b ≠ "".
Proof.
  intros Hdb Hall. unfold package2sty. case_bool_decide as Hin.
  { intros [= <-] ->. rewrite Forall_forall in Hall.
    apply Hall in Hin. simpl in Hin. lia. }
  destruct (lsRdb !! p) as [files|] eqn:Hp; [|done].
  case_bool_decide as Hfiles.
  { intros [= <-] ->. congruence. }
  intros (f & _ & Hf & ->)%scan_files_Some.
  by eapply PathFacts.stem_lower_sty.
Qed.

Lemma ctan_url_nonempty (k : string) : ctan_url +:+ k ≠ "".
Proof. done. Qed.

(** The claim C9 as it is worded fails once the merger has run, and for
    an empty caption.  The merger copies the records of the extras as
    they are: [bar], which is in no catalogue, enters the package table
    with an empty detail and an empty documentation, and [baz] with an
    empty command.  And the detail of an entry is the caption of the
    catalogue as it is: the record of [foo], whose caption is empty,
    gives a package entry and a class entry with an empty detail. *)
Lemma extras_and_empty_captions_are_copied :
  let ctanList := [CtanRecord "foo" ""] in
  let fd := map ln ["./foo:"; "foo.sty"; "foo.cls"; ""] in
  let extra : gmap string entry :=
    {[ "bar" := Entry "bar" "" ""; "baz" := Entry "" "Baz" "" ]} in
  build_ctanDict ctanList !! "bar" = None
  ∧ (main ctanList fd extra).1 !! "bar" = Some (Entry "bar" "" "")
  ∧ (main ctanList fd extra).1 !! "baz" = Some (Entry "" "Baz" "")
  ∧ is_Some (build_ctanDict ctanList !! "foo")
  ∧ (main ctanList fd extra).1 !! "foo" = Some (Entry "foo" "" "https://ctan.org/pkg/foo")
  ∧ (main ctanList fd extra).2 !! "foo" = Some (Entry "foo" "" "https://ctan.org/pkg/foo").
Proof. split_and!; first [by eexists | by vm_compute]. Qed.

(** C9, as the code has it.  In every run, each entry the resolver
    stores in the package table and each entry of the class table has a
    non-empty command.  A package entry carries the caption and the
    documentation address of the catalogue record of its key.  A class
    entry carries the detail and the documentation of the catalogue entry
    of its stem when there is one, and two empty strings otherwise:
    detail and documentation are both empty only for a class entry whose
    stem has no catalogue match, and a documentation is empty in that
    case only, while a detail is as empty as the caption it copies.  The
    merger leaves the entries of the resolver as they are and adds
    records of the extras, copied as supplied, under other keys. *)
Theorem pipeline_tables (ctanList : list ctan_record) (fd : list string)
    (extra : gmap string entry) :
  (∀ k e, main_packages ctanList fd !! k = Some e →
          command e ≠ ""
          ∧ (∃ x, x ∈ ctanList ∧ key x = k ∧ detail e = caption x
                  ∧ documentation e = "https://ctan.org/pkg/" +:+ k)
          ∧ documentation e ≠ "")
  ∧ (∀ k e, main_classes ctanList fd !! k = Some e →
            command e = k ∧ k ≠ ""
            ∧ match build_ctanDict ctanList !! k with
              | Some c => detail e = detail c
                          ∧ documentation e = "https://ctan.org/pkg/" +:+ k
              | None => detail e = "" ∧ documentation e = ""
              end
            ∧ (documentation e = "" ↔ build_ctanDict ctanList !! k = None)
            ∧ (detail e = "" ∧ documentation e = "" ↔ build_ctanDict ctanList !! k = None))
  ∧ (∀ k e, main_packages ctanList fd !! k = Some e →
            (main ctanList fd extra).1 !! k = Some e)
  ∧ (∀ k e, (main ctanList fd extra).1 !! k = Some e →
            main_packages ctanList fd !! k = Some e
            ∨ (main_packages ctanList fd !! k = None ∧ extra !! k = Some e))
  ∧ (main ctanList fd extra).2 = main_classes ctanList fd.
Proof.
  split_and!.
  - intros k e. unfold main_packages.
    destruct (load_texmfbd_inv fd (build_ctanDict ctanList)) as [Hdb Hall].
    destruct (load_texmfbd fd (build_ctanDict ctanList)) as [db files]; simpl in *.
    rewrite get_packages_lookup.
    destruct (build_ctanDict ctanList !! k) as [c|] eqn:Hc; [|done]. simpl.
    destruct (package2sty k db files) as [b|] eqn:Hb; [|done]. simpl.
    intros [= <-]. cbn [set_command command detail documentation].
    split; [by eapply package2sty_nonempty|].
    apply build_ctanDict_lookup_Some in Hc as (x & Hx & Hk & ->).
    unfold catalogue_entry. cbn [command detail documentation]. rewrite Hk.
    split; [by exists x|apply ctan_url_nonempty].
  - intros k e. unfold main_classes.
    destruct (load_texmfbd fd (build_ctanDict ctanList)) as [db files]; simpl.
    intros [-> (c & _ & Hc & ->)]%get_classes_lookup_Some.
    unfold class_entry.
    pose proof (PathFacts.stem_endswith_cls c Hc) as Hne.
    destruct (build_ctanDict ctanList !! Path.stem c) as [c'|] eqn:Hc';
      cbn [command detail documentation].
    + apply build_ctanDict_lookup_Some in Hc' as (x & _ & Hk & ->).
      unfold catalogue_entry. cbn [command detail documentation]. rewrite Hk.
      split_and!; [done..| |].
      * split; [|done]. intros H. by apply ctan_url_nonempty in H.
      * split; [|done]. intros [_ H]. by apply ctan_url_nonempty in H.
    + by split_and!.
  - intros k e Hk. unfold main. simpl. rewrite add_extra_packages_union.
    by apply lookup_union_Some_l.
  - intros k e. unfold main. simpl. rewrite add_extra_packages_union.
    intros [?|[? ?]]%lookup_union_Some_raw; auto.
  - done.
Qed.

Lemma pipeline_tables_witness :
  command (Entry "foo" "Foo package" "https://ctan.org/pkg/foo") ≠ ""
  ∧ (∃ x, x ∈ [CtanRecord "foo" "Foo package"] ∧ key x = "foo"
          ∧ detail (Entry "foo" "Foo package" "https://ctan.org/pkg/foo") = caption x
          ∧ documentation (Entry "foo" "Foo package" "https://ctan.org/pkg/foo")
            = "https://ctan.org/pkg/" +:+ "foo")
  ∧ documentation (Entry "foo" "Foo package" "https://ctan.org/pkg/foo") ≠ "".
Proof.
  apply (proj1 (pipeline_tables [CtanRecord "foo" "Foo package"]
                                (map ln ["./foo:"; "foo.sty"; ""]) ∅) "foo").
  vm_compute. reflexivity.
Defined.

(** ** Running the script on small inputs *)

Example path_parts_1 : Path.parts "./tex/latex/foo" = ["tex"; "latex"; "foo"].
Proof. reflexivity. Qed.

Example path_parts_2 : Path.parts "/a//b/./c/" = ["/"; "a"; "b"; "c"].
Proof. reflexivity. Qed.

Example path_parts_3 : Path.parts "//a" = ["//"; "a"].
Proof. reflexivity. Qed.

Example path_suffix_1 : Path.suffix "foo.sty" = ".sty" ∧ Path.stem "foo.sty" = "foo".
Proof. split; reflexivity. Qed.

Example path_suffix_2 : Path.suffix ".cls" = "" ∧ Path.stem ".cls" = ".cls".
Proof. split; reflexivity. Qed.

Example path_suffix_3 :
  Path.suffix "a.b/c.tar.gz" = ".gz" ∧ Path.stem "a.b/c.tar.gz" = "c.tar".
Proof. split; reflexivity. Qed.

Example path_name_1 : Path.name "foo/" = "foo" ∧ Path.name "/" = "" ∧ Path.name "." = "".
Proof. repeat split; reflexivity. Qed.

Example rstrip_nl_1 :
  Str.rstrip_nl (ln (ln "foo")) = "foo" ∧ Str.rstrip_nl (ln "") = "".
Proof. split; reflexivity. Qed.

(** The package [foo] with its file [foo.sty]. *)
Example run_foo :
  main [CtanRecord "foo" "Foo package"] (map ln ["./foo:"; "foo.sty"; ""]) ∅
  = ({[ "foo" := Entry "foo" "Foo package" "https://ctan.org/pkg/foo" ]}, ∅).
Proof. vm_compute. reflexivity. Qed.

(** A block under [./doc] reaches neither table. *)
Example run_doc_foo :
  main [CtanRecord "foo" "Foo package"] (map ln ["./doc/foo:"; "foo.pdf"; ""]) ∅
  = (∅, ∅).
Proof. vm_compute. reflexivity. Qed.

(** The package is the innermost directory that is a key; files of one
    package in several blocks are gathered in the order they are read. *)
Example run_two_blocks :
  load_texmfbd
    (map ln ["% ls-R -- filename database."; "./:"; "tex"; "";
             "./tex/latex/foo:"; "foo.sty"; "foo.cfg"; "bar"; "";
             "./tex/latex/foo/bar:"; "bar.def"; "";
             "./tex/generic/foo:"; "foo.cls"; ""])
    (build_ctanDict [CtanRecord "foo" "Foo"; CtanRecord "bar" "Bar"])
  = ({[ "foo" := ["foo.sty"; "foo.cls"]; "bar" := ["bar.def"] ]},
     ["foo.sty"; "bar.def"; "foo.cls"]).
Proof. vm_compute. reflexivity. Qed.

(** A later record of the same key replaces the earlier one. *)
Example build_ctanDict_repeated_key :
  build_ctanDict [CtanRecord "foo" "first"; CtanRecord "foo" "second"]
  = {[ "foo" := Entry "foo" "second" "https://ctan.org/pkg/foo" ]}.
Proof. vm_compute. reflexivity. Qed.

(** * Further properties of the script *)

(** ** More facts about strings and paths *)

Module MoreFacts.
Import Str StrFacts Path PathFacts.

Lemma startswith_inv (pre s : string) :
  startswith pre s = true → ∃ r, s = pre +:+ r.
Proof.
  unfold startswith. revert s.
  induction pre as [|c pre IH]; intros s; simpl.
  - intros _. exists s. by destruct s.
  - destruct s as [|d s]; simpl; [done|].
    destruct (ascii_dec c d) as [->|]; [|done].
    intros [r ->]%IH. by exists r.
Qed.

Lemma has_sep_app (a b : string) : has_sep (a +:+ b) = has_sep a || has_sep b.
Proof.
  induction a as [|c a IH]; simpl; [done|]. by rewrite IH, orb_assoc.
Qed.

Lemma split_sep_no_sep (s x : string) : x ∈ split_sep s → has_sep x = false.
Proof.
  revert x. induction s as [|c s IH]; intros x; simpl.
  - intros ->%list_elem_of_singleton. done.
  - destruct (Ascii.eqb c slash) eqn:Hc.
    + intros [->|Hx]%elem_of_cons; [done|]. by apply IH.
    + destruct (split_sep s) as [|h t] eqn:Hs.
      * intros ->%list_elem_of_singleton. simpl. by rewrite Hc.
      * intros [->|Hx]%elem_of_cons.
        -- simpl. rewrite Hc. apply IH. by left.
        -- apply IH. by right.
Qed.

Lemma components_no_sep (p x : string) : x ∈ components p → has_sep x = false.
Proof.
  unfold components. intros [_ Hx]%list_elem_of_filter.
  by eapply split_sep_no_sep.
Qed.

Lemma name_no_sep (p : string) : has_sep (name p) = false.
Proof.
  unfold name. destruct (last (components p)) as [x|] eqn:Hlast; [|done].
  simpl. apply (components_no_sep p). by eapply last_Some_elem_of.
Qed.

Lemma take_drop (n : nat) (s : string) : take n s +:+ drop n s = s.
Proof.
  revert s. induction n as [|n IH]; intros [|c s]; simpl; try done.
  by rewrite IH.
Qed.

Lemma take_app_length (a b : string) : take (String.length a) (a +:+ b) = a.
Proof. induction a as [|c a IH]; simpl; [by destruct b | by rewrite IH]. Qed.

Lemma drop_app_length (a b : string) : drop (String.length a) (a +:+ b) = b.
Proof. induction a as [|c a IH]; simpl; [by destruct b | done]. Qed.

Lemma rfind_app (c : ascii) (a b : string) :
  rfind c (a +:+ b) =
    match rfind c b with
    | Some i => Some (String.length a + i)
    | None => rfind c a
    end.
Proof.
  induction a as [|x a IH]; simpl; [by destruct (rfind c b)|].
  rewrite IH. by destruct (rfind c b); [|destruct (rfind c a)].
Qed.

Lemma lower_ascii_dot (c : ascii) :
  Ascii.eqb (lower_ascii c) dot = Ascii.eqb c dot.
Proof. by destruct c as [[] [] [] [] [] [] [] []]. Qed.

Lemma rfind_dot_lower (s : string) : rfind dot (lower s) = rfind dot s.
Proof.
  induction s as [|c s IH]; simpl; [done|].
  by rewrite IH, lower_ascii_dot.
Qed.

Lemma rstrip_nl_idemp (s : string) : rstrip_nl (rstrip_nl s) = rstrip_nl s.
Proof.
  induction s as [|c s IH]; simpl; [done|].
  destruct (rstrip_nl s) as [|a r] eqn:Hs.
  - destruct (Ascii.eqb c nl) eqn:Hc; simpl; [done|]. by rewrite Hc.
  - change (rstrip_nl (String c (String a r)))
      with (match rstrip_nl (String a r) with
            | EmptyString => if Ascii.eqb c nl then EmptyString else String c EmptyString
            | r' => String c r'
            end).
    by rewrite IH.
Qed.

(** The suffix of a path, when there is one, ends its name. *)
Lemma suffix_endswith (p : string) :
  suffix p ≠ "" → endswith (suffix p) (name p) = true.
Proof.
  intros Hne. destruct (suffix_cases p) as [?|(i & _ & _ & He)]; [done|].
  rewrite He. rewrite <- (take_drop i (name p)) at 2. apply endswith_app.
Qed.

Lemma wanted_collected_name (line : string) :
  wanted_suffix line = true → collected_name (name line).
Proof.
  unfold wanted_suffix. intros Hw%bool_decide_eq_true.
  split_and!.
  - apply name_no_sep.
  - by apply wanted_name_long.
  - assert (suffix line ≠ "") as Hne.
    { intros He. rewrite He in Hw. apply list_elem_of_In in Hw. simpl in Hw.
      intuition discriminate. }
    pose proof (suffix_endswith line Hne) as Hend.
    apply list_elem_of_In in Hw. simpl in Hw.
    destruct Hw as [Hs|[Hs|[Hs|[]]]]; rewrite <- Hs in Hend; auto.
Qed.

(** Name, suffix and stem of a simple name followed by an extension. *)
Lemma path_simple (p e : string) :
  simple_name p → has_sep e = false → rfind dot e = Some 0 →
  2 ≤ String.length e →
  name (p +:+ e) = p +:+ e ∧ suffix (p +:+ e) = e ∧ stem (p +:+ e) = p.
Proof.
  intros [Hsep Hne] Hesep Hdot Hlen.
  assert (name (p +:+ e) = p +:+ e) as Hname.
  { unfold name, components.
    rewrite split_sep_nosep by (by rewrite has_sep_app, Hsep, Hesep).
    rewrite filter_cons_True, filter_nil; [done|].
    rewrite keep_component_app; [done| |]; intros ->; simpl in Hlen; lia. }
  assert (has_suffix_at (String.length p) (p +:+ e) = true) as Hat.
  { unfold has_suffix_at. rewrite length_append.
    destruct p; [done|]. simpl.
    apply Nat.ltb_lt. lia. }
  unfold suffix, stem. rewrite Hname, rfind_app, Hdot, Nat.add_0_r, Hat.
  by rewrite drop_app_length, take_app_length.
Qed.

Lemma path_simple_ext (p ext : string) :
  simple_name p → ext ∈ [".sty"; ".def"; ".cls"] →
  name (p +:+ ext) = p +:+ ext ∧ suffix (p +:+ ext) = ext ∧ stem (p +:+ ext) = p.
Proof.
  intros Hp Hext. apply list_elem_of_In in Hext. simpl in Hext.
  destruct Hext as [<-|[<-|[<-|[]]]]; apply path_simple; try done; simpl; lia.
Qed.

(** The stem of a file whose lower-cased name is [p.sty], for a simple
    name [p], is [p] up to the case of its letters. *)
Lemma stem_lower_sty_simple (f p : string) :
  simple_name p → lower f = p +:+ ".sty" → lower (stem f) = p.
Proof.
  intros [Hsep Hne] (f1 & f2 & -> & Hf1 & Hf2)%lower_app_inv.
  assert (simple_name f1) as Hf1s.
  { split; [by rewrite <- has_sep_lower, Hf1|]. intros ->. by subst p. }
  destruct (path_simple f1 f2 Hf1s) as (_ & _ & ->); [| | |done].
  - by rewrite <- has_sep_lower, Hf2.
  - by rewrite <- rfind_dot_lower, Hf2.
  - rewrite <- length_lower, Hf2. simpl. lia.
Qed.

End MoreFacts.

(** ** More facts about the loop of [load_texmfbd] *)

Section parser_more.
Context (ctanDict : gmap string entry).
Implicit Types (st : parser_state) (raw line p f : string) (fd : list string).
Import Str StrFacts Path PathFacts MoreFacts.

(** What holds of every state holds after one more line, once it is
    shown to survive the entry of a block and the end of the loop body. *)
Lemma step_preserves (P : parser_state → Prop) st raw :
  P st →
  (∀ st0, P st0 → P (enter ctanDict (rstrip_nl raw) st0)) →
  (∀ st0 p, P st0 → pkg st0 = Some p → P (collect p (rstrip_nl raw) st0)) →
  P (step ctanDict st raw).
Proof.
  intros HP Henter Hcollect. unfold step.
  destruct (skipped _); [done|].
  destruct (pkg (enter ctanDict (rstrip_nl raw) st)) as [p|] eqn:Hp; auto.
Qed.

Lemma run_preserves (P : parser_state → Prop) st fd :
  (∀ st0 raw, P st0 → P (step ctanDict st0 raw)) →
  P st → P (run ctanDict st fd).
Proof.
  intros Hstep. revert st. induction fd as [|raw fd IH]; intros st HP; [done|].
  rewrite run_cons. by apply IH, Hstep.
Qed.

Lemma header_root line : opens_block line = true → root (drop_last line) = "".
Proof.
  unfold opens_block. intros [Hend Hstart]%andb_true_iff.
  apply startswith_inv in Hstart as [r ->].
  by destruct r as [|c r].
Qed.

Lemma find_pkg_spec line p :
  opens_block line = true → find_pkg ctanDict line = Some p →
  is_Some (ctanDict !! p) ∧ simple_name p.
Proof.
  intros Hopen (inner & outer & Hrev & Hp & _)%first_known_Some.
  split; [done|].
  assert (p ∈ components (drop_last line)) as Hin.
  { assert (p ∈ parts (drop_last line)) as Hparts.
    { apply elem_of_reverse. rewrite Hrev. apply elem_of_app. right. by left. }
    unfold parts in Hparts. by rewrite header_root in Hparts. }
  split; [by eapply components_no_sep | by eapply components_nonempty].
Qed.

Lemma attributed_insert (db : gmap string (list string)) p (l : list string) f :
  attributed (<[p := default [] (db !! p) ++ l]> db) f ↔ attributed db f ∨ f ∈ l.
Proof.
  unfold attributed. split.
  - intros (q & l' & Hq & Hf). destruct (decide (p = q)) as [<-|Hne].
    + rewrite lookup_insert_eq in Hq. injection Hq as <-.
      apply elem_of_app in Hf as [Hf|Hf]; [|by right].
      left. destruct (db !! p) as [l0|] eqn:Hp; simpl in Hf.
      * by exists p, l0.
      * by apply elem_of_nil in Hf.
    + rewrite lookup_insert_ne in Hq by done. left. by exists q, l'.
  - intros [(q & l' & Hq & Hf)|Hf].
    + destruct (decide (p = q)) as [<-|Hne].
      * exists p, (default [] (db !! p) ++ l). rewrite lookup_insert_eq.
        split; [done|]. rewrite Hq. simpl. apply elem_of_app. by left.
      * exists q, l'. by rewrite lookup_insert_ne.
    + exists p, (default [] (db !! p) ++ l). rewrite lookup_insert_eq.
      split; [done|]. apply elem_of_app. by right.
Qed.

Lemma step_files_inv st raw : files_inv st → files_inv (step ctanDict st raw).
Proof.
  intros Hinv. apply step_preserves; [done| |]; clear st Hinv.
  - intros st (Hpend & Hattr & Hall). unfold enter.
    destruct (opens_block _); [|done]. split_and!; simpl; [|done..].
    intros f Hf. by apply elem_of_nil in Hf.
  - intros st p (Hpend & Hattr & Hall) Hp. unfold collect.
    destruct (negb _).
    + destruct (wanted_suffix _) eqn:Hw; [|done]. split_and!; simpl.
      * intros f [?|?]%elem_of_app; apply elem_of_app; auto.
      * intros f ?. apply elem_of_app. auto.
      * apply Forall_app. split; [done|]. apply Forall_singleton.
        by apply wanted_collected_name.
    + split_and!; simpl; [done| |done].
      destruct (pkgfiles st) as [|f0 l] eqn:Hl; [done|].
      intros f [?|?]%attributed_insert; auto.
Qed.

Lemma step_keys_inv st raw :
  keys_inv ctanDict st → keys_inv ctanDict (step ctanDict st raw).
Proof.
  intros Hinv. apply step_preserves; [done| |]; clear st Hinv.
  - intros st [Hpkg Hdb]. unfold enter.
    destruct (opens_block _) eqn:Hopen; [|done]. split; simpl; [|done].
    intros p Hp. by eapply find_pkg_spec.
  - intros st p [Hpkg Hdb] Hp. unfold collect.
    destruct (negb _).
    + destruct (wanted_suffix _); split; simpl; try done;
        intros q [= <-]; auto.
    + split; simpl; [done|].
      destruct (pkgfiles st) as [|f0 l] eqn:Hl; [done|].
      intros q l'. destruct (decide (p = q)) as [<-|Hne].
      * rewrite lookup_insert_eq. intros [= <-].
        destruct (Hpkg p Hp) as [? ?]. split_and!; [done..|].
        by destruct (default [] (lsRdb st !! p)).
      * rewrite lookup_insert_ne by done. apply Hdb.
Qed.

(** The list of a package only grows, at its end. *)
Lemma step_lsRdb_grows st raw p (l : list string) :
  lsRdb st !! p = Some l →
  ∃ l', lsRdb (step ctanDict st raw) !! p = Some (l ++ l').
Proof.
  intros Hl.
  apply (step_preserves (λ st0, ∃ l', lsRdb st0 !! p = Some (l ++ l'))).
  - exists []. by rewrite app_nil_r.
  - intros st0 H. unfold enter. by destruct (opens_block _).
  - intros st0 q [l' Hl'] _. unfold collect.
    destruct (negb _); [by destruct (wanted_suffix _); exists l'|]. simpl.
    destruct (pkgfiles st0) as [|f0 l0]; [by exists l'|].
    destruct (decide (q = p)) as [->|Hne].
    + rewrite lookup_insert_eq, Hl'. simpl.
      exists (l' ++ f0 :: l0). by rewrite (assoc_L (++)).
    + rewrite lookup_insert_ne by done. by exists l'.
Qed.

Lemma run_lsRdb_grows st fd p (l : list string) :
  lsRdb st !! p = Some l →
  ∃ l', lsRdb (run ctanDict st fd) !! p = Some (l ++ l').
Proof.
  intros Hl.
  apply (run_preserves (λ st0, ∃ l', lsRdb st0 !! p = Some (l ++ l'))).
  - intros st0 raw [l' Hl'].
    destruct (step_lsRdb_grows st0 raw p _ Hl') as [l'' Hl''].
    exists (l' ++ l''). by rewrite (assoc_L (++)).
  - exists []. by rewrite app_nil_r.
Qed.

Lemma merge_db_insert (db0 db : gmap string (list string)) p (l : list string) :
  <[p := default [] (merge_db db0 db !! p) ++ l]> (merge_db db0 db)
  = merge_db db0 (<[p := default [] (db !! p) ++ l]> db).
Proof.
  apply map_eq. intros q. unfold merge_db.
  destruct (decide (p = q)) as [<-|Hne].
  - rewrite lookup_insert_eq, !lookup_union_with, lookup_insert_eq.
    destruct (db0 !! p), (db !! p); simpl; by rewrite ?(assoc_L (++)).
  - rewrite lookup_insert_ne, !lookup_union_with, lookup_insert_ne; done.
Qed.

Lemma merge_db_empty_r (db : gmap string (list string)) : merge_db db ∅ = db.
Proof.
  apply map_eq. intros q. unfold merge_db.
  rewrite lookup_union_with, lookup_empty. by destruct (db !! q).
Qed.

Lemma step_resumed (db0 : gmap string (list string)) (all0 : list string)
    (s1 s2 : parser_state) raw :
  resumed db0 all0 s1 s2 →
  resumed db0 all0 (step ctanDict s1 raw) (step ctanDict s2 raw).
Proof.
  destruct s1 as [db1 p1 f1 a1], s2 as [db2 p2 f2 a2].
  intros (Hdb & Hpkg & Hfiles & Hall); simpl in *; subst.
  unfold step, enter, collect, resumed.
  destruct (skipped _); [done|].
  destruct (opens_block _); simpl.
  - destruct (find_pkg _ _); [|done].
    destruct (negb _); [|done].
    destruct (wanted_suffix _); simpl; [|done].
    by rewrite (assoc_L (++)).
  - destruct p2 as [p|]; [|done].
    rewrite Hfiles by done.
    destruct (negb _).
    + destruct (wanted_suffix _); simpl; [|done].
      by rewrite (assoc_L (++)).
    + simpl. split_and!; [|done|by intros []|done].
      destruct f2; [done|]. apply merge_db_insert.
Qed.

Lemma run_resumed (db0 : gmap string (list string)) (all0 : list string)
    (s1 s2 : parser_state) fd :
  resumed db0 all0 s1 s2 →
  resumed db0 all0 (run ctanDict s1 fd) (run ctanDict s2 fd).
Proof.
  revert s1 s2. induction fd as [|raw fd IH]; intros s1 s2 H; [done|].
  rewrite !run_cons. by apply IH, step_resumed.
Qed.

Lemma step_attributed st raw :
  attributed_inv st →
  (effective_header (rstrip_nl raw) = true → pkg st = None) →
  attributed_inv (step ctanDict st raw).
Proof.
  intros Hinv Hhdr.
  destruct (effective_header (rstrip_nl raw)) eqn:Heff.
  { rewrite step_header by done. intros f Hf. simpl in *.
    destruct (Hinv f Hf) as [?|[Hsome _]]; [by left|].
    rewrite Hhdr in Hsome by done. by destruct Hsome. }
  apply effective_header_false in Heff as [Hskip|Hopen].
  { by rewrite step_skipped. }
  unfold step, enter. destruct (skipped _); [done|]. rewrite Hopen.
  destruct (pkg st) as [p|] eqn:Hp; [|done].
  unfold collect. destruct (negb _).
  - destruct (wanted_suffix _).
    + intros f Hf. simpl in *.
      apply elem_of_app in Hf as [Hf|Hf].
      * destruct (Hinv f Hf) as [?|[_ ?]]; [by left|].
        right. split; [done|]. apply elem_of_app. by left.
      * right. split; [done|]. apply elem_of_app. by right.
    + intros f Hf. simpl in *.
      destruct (Hinv f Hf) as [?|[_ ?]]; [by left|]. by right.
  - intros f Hf. simpl in *. left.
    destruct (pkgfiles st) as [|f0 l] eqn:Hl.
    + destruct (Hinv f Hf) as [?|[_ Hnil]]; [done|].
      rewrite Hl in Hnil. by apply elem_of_nil in Hnil.
    + apply attributed_insert. destruct (Hinv f Hf) as [?|[_ Hpend]]; [by left|].
      rewrite Hl in Hpend. by right.
Qed.

Lemma run_attributed_no_header st fd :
  Forall (λ raw, effective_header (rstrip_nl raw) = false) fd →
  attributed_inv st → attributed_inv (run ctanDict st fd).
Proof.
  intros Hfd. revert st. induction Hfd as [|raw fd Hraw _ IH]; intros st Hinv; [done|].
  rewrite run_cons. apply IH, step_attributed; [done|]. by rewrite Hraw.
Qed.

Lemma run_block_attributed st (b : block) :
  well_formed_block b → pkg st = None → attributed_inv st →
  attributed_inv (run ctanDict st (block_lines b)).
Proof.
  intros [_ Hfiles] Hpkg Hinv. unfold block_lines. rewrite run_cons.
  apply run_attributed_no_header; [|by apply step_attributed].
  apply Forall_app. split; [|by apply Forall_singleton].
  eapply Forall_impl; [done|]. intros raw Hraw.
  apply effective_header_false. by right.
Qed.

Lemma run_index_attributed st (blocks : list block) :
  Forall well_formed_block blocks → pkg st = None → attributed_inv st →
  attributed_inv (run ctanDict st (index_of blocks))
  ∧ pkg (run ctanDict st (index_of blocks)) = None.
Proof.
  intros Hwf. revert st. induction Hwf as [|b blocks Hb _ IH]; intros st Hpkg Hinv.
  { done. }
  rewrite index_of_cons, run_app.
  apply IH; [apply run_block_pkg | by apply run_block_attributed].
Qed.

Lemma step_rstrip st raw :
  step ctanDict st (rstrip_nl raw) = step ctanDict st raw.
Proof. unfold step. by rewrite rstrip_nl_idemp. Qed.

End parser_more.

Lemma first_known_empty (l : list string) : first_known ∅ l = None.
Proof. induction l as [|x l IH]; simpl; [done|]. by rewrite lookup_empty. Qed.

Lemma step_empty_catalogue (st : parser_state) (raw : string) :
  pkg st = None → pkgfiles st = [] → step ∅ st raw = st.
Proof.
  intros Hpkg Hfiles. unfold step, enter, find_pkg.
  destruct (skipped _); [done|].
  destruct (opens_block _); [|by rewrite Hpkg].
  rewrite first_known_empty. simpl.
  destruct st; simpl in *; by subst.
Qed.

Lemma run_files_inv (ctanDict : gmap string entry) (fd : list string) :
  files_inv (run ctanDict init_state fd).
Proof.
  apply run_preserves; [intros; by apply step_files_inv|].
  split_and!; simpl.
  - intros f Hf. by apply elem_of_nil in Hf.
  - intros f (p & l & Hp & _). by rewrite lookup_empty in Hp.
  - constructor.
Qed.

Lemma run_keys_inv (ctanDict : gmap string entry) (fd : list string) :
  keys_inv ctanDict (run ctanDict init_state fd).
Proof.
  apply run_preserves; [intros; by apply step_keys_inv|].
  split; simpl; [done|]. intros p l Hp. by rewrite lookup_empty in Hp.
Qed.

(** X1.  Every name in the list of all files is a base name: it has no
    slash, it ends in [.sty], [.def] or [.cls], and it is longer than
    that extension. *)
Theorem load_texmfbd_names (fd : list string) (ctanDict : gmap string entry)
    (f : string) :
  f ∈ (load_texmfbd fd ctanDict).2 →
  Str.has_sep f = false
  ∧ 5 ≤ String.length f
  ∧ (Str.endswith ".sty" f = true ∨ Str.endswith ".def" f = true
     ∨ Str.endswith ".cls" f = true).
Proof.
  intros Hf. destruct (run_files_inv ctanDict fd) as (_ & _ & Hall).
  rewrite Forall_forall in Hall. by apply Hall.
Qed.

Lemma load_texmfbd_names_witness :
  Str.has_sep "foo.sty" = false
  ∧ 5 ≤ String.length "foo.sty"
  ∧ (Str.endswith ".sty" "foo.sty" = true ∨ Str.endswith ".def" "foo.sty" = true
     ∨ Str.endswith ".cls" "foo.sty" = true).
Proof.
  apply (load_texmfbd_names (map ln ["./tex/foo:"; "sub/foo.sty"; "foo.pdf"; ""])
                            {[ "foo" := Entry "foo" "" "" ]}).
  compute_done.
Defined.

(** X2.  Every file listed under a package of [lsRdb] is in the list of
    all files. *)
Theorem load_texmfbd_lsRdb_in_allfiles (fd : list string)
    (ctanDict : gmap string entry) (p : string) (l : list string) (f : string) :
  (load_texmfbd fd ctanDict).1 !! p = Some l → f ∈ l →
  f ∈ (load_texmfbd fd ctanDict).2.
Proof.
  intros Hp Hf. destruct (run_files_inv ctanDict fd) as (_ & Hattr & _).
  apply Hattr. by exists p, l.
Qed.

Lemma load_texmfbd_lsRdb_in_allfiles_witness :
  "foo.def" ∈ (load_texmfbd (map ln ["./tex/foo:"; "foo.sty"; "foo.def"; ""])
                            {[ "foo" := Entry "foo" "" "" ]}).2.
Proof.
  apply (load_texmfbd_lsRdb_in_allfiles _ _ "foo" ["foo.sty"; "foo.def"]).
  - vm_compute. reflexivity.
  - compute_done.
Defined.

(** X3.  Every key of [lsRdb] is a key of the catalogue and a single
    directory name (not empty, no slash), and its list of files is not
    empty. *)
Theorem load_texmfbd_keys (fd : list string) (ctanDict : gmap string entry)
    (p : string) (l : list string) :
  (load_texmfbd fd ctanDict).1 !! p = Some l →
  is_Some (ctanDict !! p) ∧ Str.has_sep p = false ∧ p ≠ "" ∧ l ≠ [].
Proof.
  intros Hp. destruct (run_keys_inv ctanDict fd) as [_ Hdb].
  destruct (Hdb p l Hp) as (? & [? ?] & ?). done.
Qed.

Lemma load_texmfbd_keys_witness :
  is_Some (({[ "foo" := Entry "foo" "" "" ]} : gmap string entry) !! "foo")
  ∧ Str.has_sep "foo" = false ∧ "foo" ≠ "" ∧ ["foo.sty"] ≠ [].
Proof.
  apply (load_texmfbd_keys (map ln ["./tex/foo:"; "foo.sty"; ""; "./tex/bar:"; ""])).
  vm_compute. reflexivity.
Defined.

(** X4.  Reading more lines never removes or reorders what was gathered:
    the list of a package is extended at its end, and so is the list of
    all files. *)
Theorem load_texmfbd_grows (fd1 fd2 : list string) (ctanDict : gmap string entry) :
  (∀ p l, (load_texmfbd fd1 ctanDict).1 !! p = Some l →
          ∃ l', (load_texmfbd (fd1 ++ fd2) ctanDict).1 !! p = Some (l ++ l'))
  ∧ (load_texmfbd fd1 ctanDict).2 `prefix_of` (load_texmfbd (fd1 ++ fd2) ctanDict).2.
Proof.
  unfold load_texmfbd. simpl. rewrite run_app. split.
  - intros p l Hl. by apply run_lsRdb_grows.
  - apply run_allfiles_prefix.
Qed.

Lemma load_texmfbd_grows_witness :
  ∃ l', (load_texmfbd (map ln ["./tex/foo:"; "foo.sty"; ""]
                       ++ map ln ["./tex/foo/x:"; "x.def"; ""])
                      {[ "foo" := Entry "foo" "" "" ]}).1 !! "foo"
        = Some (["foo.sty"] ++ l').
Proof.
  apply (proj1 (load_texmfbd_grows _ _ _)). vm_compute. reflexivity.
Defined.

Lemma load_texmfbd_resume (fd1 fd2 : list string) (ctanDict : gmap string entry) :
  pkg (run ctanDict init_state fd1) = None →
  load_texmfbd (fd1 ++ fd2) ctanDict
  = (merge_db (load_texmfbd fd1 ctanDict).1 (load_texmfbd fd2 ctanDict).1,
     (load_texmfbd fd1 ctanDict).2 ++ (load_texmfbd fd2 ctanDict).2).
Proof.
  intros Hpkg. unfold load_texmfbd. simpl. rewrite run_app.
  destruct (run_resumed ctanDict (lsRdb (run ctanDict init_state fd1))
              (allfiles (run ctanDict init_state fd1))
              (run ctanDict init_state fd1) init_state fd2) as (-> & _ & _ & ->);
    [|done].
  split_and!; simpl.
  - by rewrite merge_db_empty_r.
  - done.
  - rewrite Hpkg. by intros [].
  - by rewrite app_nil_r.
Qed.

(** X5.  An index can be read in two parts when the first part ends in a
    blank line: the list of all files is the two lists put end to end,
    and [lsRdb] holds, for each package, the files of the first part
    followed by those of the second. *)
Theorem load_texmfbd_app (fd1 fd2 : list string) (blank : string)
    (ctanDict : gmap string entry) :
  Str.rstrip_nl blank = "" →
  load_texmfbd ((fd1 ++ [blank]) ++ fd2) ctanDict
  = (union_with (λ l1 l2, Some (l1 ++ l2))
       (load_texmfbd (fd1 ++ [blank]) ctanDict).1 (load_texmfbd fd2 ctanDict).1,
     (load_texmfbd (fd1 ++ [blank]) ctanDict).2 ++ (load_texmfbd fd2 ctanDict).2).
Proof.
  intros Hblank. apply load_texmfbd_resume.
  rewrite run_app, run_cons, run_nil. by apply step_blank.
Qed.

Lemma load_texmfbd_app_witness :
  load_texmfbd ((map ln ["./tex/foo:"; "foo.sty"] ++ [ln ""])
                ++ map ln ["./tex/foo/x:"; "x.def"; ""])
               {[ "foo" := Entry "foo" "" "" ]}
  = (union_with (λ l1 l2, Some (l1 ++ l2))
       (load_texmfbd (map ln ["./tex/foo:"; "foo.sty"] ++ [ln ""])
                     {[ "foo" := Entry "foo" "" "" ]}).1
       (load_texmfbd (map ln ["./tex/foo/x:"; "x.def"; ""])
                     {[ "foo" := Entry "foo" "" "" ]}).1,
     (load_texmfbd (map ln ["./tex/foo:"; "foo.sty"] ++ [ln ""])
                   {[ "foo" := Entry "foo" "" "" ]}).2
     ++ (load_texmfbd (map ln ["./tex/foo/x:"; "x.def"; ""])
                      {[ "foo" := Entry "foo" "" "" ]}).2).
Proof. apply load_texmfbd_app. reflexivity. Defined.

(** X6.  With an empty catalogue nothing is collected, whatever the
    index holds: both results of the parser are empty, the class table is
    empty and the package table is the extras. *)
Theorem empty_catalogue (fd : list string) (extra : gmap string entry) :
  load_texmfbd fd ∅ = (∅, [])
  ∧ main [] fd extra = (extra, ∅).
Proof.
  assert (load_texmfbd fd ∅ = (∅, [])) as Hload.
  { unfold load_texmfbd.
    assert (run ∅ init_state fd = init_state) as ->; [|done].
    induction fd as [|raw fd IH]; [done|].
    by rewrite run_cons, step_empty_catalogue. }
  split; [done|]. unfold main, main_packages, main_classes.
  change (build_ctanDict []) with (∅ : gmap string entry). rewrite Hload.
  rewrite add_extra_packages_union. unfold get_packages.
  by rewrite map_fold_empty, (left_id_L ∅ (∪)).
Qed.

(** X7.  A line is read the same with or without its final newlines: the
    last line of a file that does not end in a newline is no special
    case. *)
Theorem load_texmfbd_rstrip (fd : list string) (ctanDict : gmap string entry) :
  load_texmfbd (Str.rstrip_nl <$> fd) ctanDict = load_texmfbd fd ctanDict.
Proof.
  unfold load_texmfbd.
  assert (∀ st, run ctanDict st (Str.rstrip_nl <$> fd) = run ctanDict st fd) as ->;
    [|done].
  induction fd as [|raw fd IH]; intros st; [done|].
  rewrite fmap_cons, !run_cons, step_rstrip. apply IH.
Qed.

(** X8.  In an index whose blocks are closed by blank lines the two
    results hold the same names: a name is in the list of all files
    exactly when it is listed under some package of [lsRdb]. *)
Theorem well_formed_index_attributed (blocks : list block)
    (ctanDict : gmap string entry) (f : string) :
  Forall well_formed_block blocks →
  f ∈ (load_texmfbd (index_of blocks) ctanDict).2
  ↔ ∃ p l, (load_texmfbd (index_of blocks) ctanDict).1 !! p = Some l ∧ f ∈ l.
Proof.
  intros Hwf. unfold load_texmfbd. simpl. split.
  - intros Hf.
    destruct (run_index_attributed ctanDict init_state blocks Hwf) as [Hinv Hpkg].
    { done. }
    { intros g Hg. by apply elem_of_nil in Hg. }
    destruct (Hinv f Hf) as [?|[Hsome _]]; [done|].
    rewrite Hpkg in Hsome. by destruct Hsome.
  - intros Hattr. destruct (run_files_inv ctanDict (index_of blocks)) as (_ & H & _).
    by apply H.
Qed.

Lemma well_formed_index_attributed_witness :
  "x.def" ∈ (load_texmfbd
               (index_of [Block (ln "./tex/foo:") [ln "foo.sty"];
                          Block (ln "./tex/foo/x:") [ln "x.def"; ln "x.txt"]])
               {[ "foo" := Entry "foo" "" "" ]}).2
  ↔ ∃ p l, (load_texmfbd
              (index_of [Block (ln "./tex/foo:") [ln "foo.sty"];
                         Block (ln "./tex/foo/x:") [ln "x.def"; ln "x.txt"]])
              {[ "foo" := Entry "foo" "" "" ]}).1 !! p = Some l ∧ "x.def" ∈ l.
Proof.
  apply well_formed_index_attributed. repeat constructor.
Defined.

(** ** More facts about the tables *)

Lemma lsRdb_in_allfiles (fd : list string) (ctanDict : gmap string entry)
    (p : string) (l : list string) (f : string) :
  (load_texmfbd fd ctanDict).1 !! p = Some l → f ∈ l →
  f ∈ (load_texmfbd fd ctanDict).2.
Proof.
  intros Hp Hf. destruct (run_files_inv ctanDict fd) as (_ & Hattr & _).
  apply Hattr. by exists p, l.
Qed.

Lemma package2sty_load (fd : list string) (ctanDict : gmap string entry)
    (p : string) :
  package2sty p (load_texmfbd fd ctanDict).1 (load_texmfbd fd ctanDict).2
  = if bool_decide ((p +:+ ".sty") ∈ (load_texmfbd fd ctanDict).2) then Some p
    else scan_files p (default [] ((load_texmfbd fd ctanDict).1 !! p)).
Proof.
  unfold package2sty. case_bool_decide as Hall; [done|].
  destruct ((load_texmfbd fd ctanDict).1 !! p) as [files|] eqn:Hp; [|done].
  rewrite bool_decide_eq_false_2; [done|].
  intros Hin. apply Hall. by eapply lsRdb_in_allfiles.
Qed.

Lemma main_packages_eq (ctanList : list ctan_record) (fd : list string) :
  main_packages ctanList fd
  = get_packages (load_texmfbd fd (build_ctanDict ctanList)).1
                 (build_ctanDict ctanList)
                 (load_texmfbd fd (build_ctanDict ctanList)).2.
Proof. done. Qed.

Lemma main_classes_eq (ctanList : list ctan_record) (fd : list string) :
  main_classes ctanList fd
  = get_classes (load_texmfbd fd (build_ctanDict ctanList)).2
                (build_ctanDict ctanList).
Proof. done. Qed.

(** X9.  On the results of the parser the second test of [package2sty]
    never decides: a file of [lsRdb] is in the list of all files, so the
    command is the key when [p.sty] is in that list, and otherwise what
    the scan of the files attributed to [p] finds. *)
Theorem package2sty_after_load (fd : list string) (ctanDict : gmap string entry)
    (p : string) :
  package2sty p (load_texmfbd fd ctanDict).1 (load_texmfbd fd ctanDict).2
  = if bool_decide ((p +:+ ".sty") ∈ (load_texmfbd fd ctanDict).2) then Some p
    else scan_files p (default [] ((load_texmfbd fd ctanDict).1 !! p)).
Proof. apply package2sty_load. Qed.

(** X10.  In every run over an index of ASCII lines the command of a
    package entry is its key up to the case of its letters; the merger
    keeps it so for the keys the resolver has stored. *)
Theorem main_packages_command (ctanList : list ctan_record) (fd : list string)
    (k : string) (e : entry) :
  Forall (λ raw, ascii_text raw = true) fd →
  main_packages ctanList fd !! k = Some e →
  Str.lower (command e) = Str.lower k
  ∧ ∀ extra, (main ctanList fd extra).1 !! k = Some e.
Proof.
  intros _ He. split.
  - revert He. rewrite main_packages_eq, get_packages_lookup, package2sty_load.
    assert (∀ p l, (load_texmfbd fd (build_ctanDict ctanList)).1 !! p = Some l →
                   simple_name p) as Hkeys.
    { intros p l Hp.
      by destruct (proj2 (run_keys_inv (build_ctanDict ctanList) fd) p l Hp)
        as (_ & ? & _). }
    generalize dependent (load_texmfbd fd (build_ctanDict ctanList)).
    intros db Hkeys.
    destruct (build_ctanDict ctanList !! k) as [c|]; [|done]. simpl.
    case_bool_decide; [by intros [= <-]|].
    destruct (db.1 !! k) as [files|] eqn:Hk; [|done].
    pose proof (Hkeys k files Hk) as Hsimple. simpl.
    destruct (scan_files k files) as [b|] eqn:Hb; [|done]. simpl.
    intros [= <-]. simpl.
    apply scan_files_Some in Hb as (f & _ & Hf & ->).
    pose proof (MoreFacts.stem_lower_sty_simple f k Hsimple Hf) as Hstem.
    rewrite <- Hstem. by rewrite StrFacts.lower_idemp.
  - intros extra. unfold main. simpl. rewrite add_extra_packages_union.
    by apply lookup_union_Some_l.
Qed.

Lemma main_packages_command_witness :
  Str.lower (command (Entry "Foo" "Foo package" "https://ctan.org/pkg/foo"))
  = Str.lower "foo"
  ∧ ∀ extra,
      (main [CtanRecord "foo" "Foo package"]
            (map ln ["./tex/foo:"; "Foo.sty"; ""]) extra).1 !! "foo"
      = Some (Entry "Foo" "Foo package" "https://ctan.org/pkg/foo").
Proof.
  apply (main_packages_command [CtanRecord "foo" "Foo package"]
                               (map ln ["./tex/foo:"; "Foo.sty"; ""]) "foo").
  - repeat constructor.
  - vm_compute. reflexivity.
Defined.

(** The entry of a key of the class table, from the names that give it. *)
Lemma get_classes_lookup (l : list string) (ctanDict : gmap string entry) (k : string) :
  (∃ c, c ∈ l ∧ Str.endswith ".cls" c = true ∧ k = Path.stem c)
  ∧ get_classes l ctanDict !! k = Some (class_entry ctanDict k)
  ∨ (¬ ∃ c, c ∈ l ∧ Str.endswith ".cls" c = true ∧ k = Path.stem c)
    ∧ get_classes l ctanDict !! k = None.
Proof.
  destruct (get_classes l ctanDict !! k) as [e|] eqn:He.
  - left. apply get_classes_lookup_Some in He as [-> ?]. done.
  - right. split; [|done]. intros (c & Hc & Hcls & ->).
    by rewrite get_classes_elem in He.
Qed.

(** X11.  The class table depends only on which names occur in the list,
    not on their order or their number; and the table of two lists put
    end to end is the union of their tables. *)
Theorem get_classes_set (l1 l2 : list string) (ctanDict : gmap string entry) :
  ((∀ c, c ∈ l1 ↔ c ∈ l2) → get_classes l1 ctanDict = get_classes l2 ctanDict)
  ∧ get_classes (l1 ++ l2) ctanDict
    = get_classes l1 ctanDict ∪ get_classes l2 ctanDict.
Proof.
  split.
  - intros Hsame. apply map_eq. intros k.
    destruct (get_classes_lookup l1 ctanDict k) as [[H1 ->]|[H1 ->]],
             (get_classes_lookup l2 ctanDict k) as [[H2 ->]|[H2 ->]]; try done.
    + destruct H2. destruct H1 as (c & Hc & ?). exists c. by rewrite <- Hsame.
    + destruct H1. destruct H2 as (c & Hc & ?). exists c. by rewrite Hsame.
  - apply map_eq. intros k. rewrite lookup_union.
    destruct (get_classes_lookup (l1 ++ l2) ctanDict k) as [[H ->]|[H ->]],
             (get_classes_lookup l1 ctanDict k) as [[H1 ->]|[H1 ->]],
             (get_classes_lookup l2 ctanDict k) as [[H2 ->]|[H2 ->]]; try done.
    + destruct H as (c & [Hc|Hc]%elem_of_app & ?); [destruct H1|destruct H2];
        by exists c.
    + destruct H. destruct H1 as (c & Hc & ?). exists c.
      split; [|done]. apply elem_of_app. by left.
    + destruct H. destruct H1 as (c & Hc & ?). exists c.
      split; [|done]. apply elem_of_app. by left.
    + destruct H. destruct H2 as (c & Hc & ?). exists c.
      split; [|done]. apply elem_of_app. by right.
Qed.

Lemma get_classes_set_witness :
  get_classes ["b.cls"; "a.cls"; "b.cls"; "a.sty"] (∅ : gmap string entry)
  = get_classes ["a.sty"; "a.cls"; "b.cls"] ∅.
Proof.
  apply (proj1 (get_classes_set _ _ ∅)).
  intros c. split; intros Hc; apply list_elem_of_In in Hc; apply list_elem_of_In;
    simpl in *; intuition.
Defined.

(** X12.  A class file [p.cls], for a name [p] that is not empty and has
    no slash, gives the class [p]: the table holds under [p] the entry of
    command [p].  Whatever the list, the key of an entry is its command
    and is not empty. *)
Theorem get_classes_simple (l : list string) (ctanDict : gmap string entry) :
  (∀ p, Str.has_sep p = false → p ≠ "" → (p +:+ ".cls") ∈ l →
        get_classes l ctanDict !! p =
          Some {| command := p;
                  detail := default "" (detail <$> ctanDict !! p);
                  documentation := default "" (documentation <$> ctanDict !! p) |})
  ∧ (∀ k e, get_classes l ctanDict !! k = Some e → command e = k ∧ k ≠ "").
Proof.
  split.
  - intros p Hsep Hne Hin.
    destruct (MoreFacts.path_simple_ext p ".cls") as (_ & _ & Hstem).
    { done. } { set_solver. }
    rewrite <- class_entry_eq, <- Hstem.
    apply get_classes_elem; [done|]. apply StrFacts.endswith_app.
  - intros k e [-> (c & _ & Hc & ->)]%get_classes_lookup_Some. split.
    + unfold class_entry. by destruct (ctanDict !! Path.stem c).
    + by apply PathFacts.stem_endswith_cls.
Qed.

Lemma get_classes_simple_witness :
  get_classes ["a.sty"; "memoir.cls"]
              {[ "memoir" := Entry "memoir" "Typeset books" "u" ]} !! "memoir"
  = Some (Entry "memoir" "Typeset books" "u").
Proof.
  refine (proj1 (get_classes_simple ["a.sty"; "memoir.cls"]
                   {[ "memoir" := Entry "memoir" "Typeset books" "u" ]})
                "memoir" _ _ _).
  - reflexivity.
  - discriminate.
  - compute_done.
Defined.

(** X13.  The package table never has a key outside the catalogue, and
    an entry differs from the catalogue entry of its key in its command
    only, which is the one [package2sty] returns.  With nothing
    installed, or with an empty catalogue, the table is empty. *)
Theorem get_packages_sub_catalogue (lsRdb : gmap string (list string))
    (ctanDict : gmap string entry) (allsty : list string) :
  (∀ k e, get_packages lsRdb ctanDict allsty !! k = Some e →
          ∃ c, ctanDict !! k = Some c
               ∧ detail e = detail c ∧ documentation e = documentation c
               ∧ package2sty k lsRdb allsty = Some (command e))
  ∧ get_packages ∅ ctanDict [] = ∅
  ∧ get_packages lsRdb ∅ allsty = ∅.
Proof.
  split_and!.
  - intros k e. rewrite get_packages_lookup.
    destruct (ctanDict !! k) as [c|]; [|done]. simpl.
    destruct (package2sty k lsRdb allsty) as [b|]; [|done]. simpl.
    intros [= <-]. by exists c.
  - apply map_eq. intros k. rewrite get_packages_lookup, lookup_empty.
    by destruct (ctanDict !! k).
  - unfold get_packages. by rewrite map_fold_empty.
Qed.

Lemma get_packages_sub_catalogue_witness :
  ∃ c, ({[ "foo" := Entry "foo" "Foo package" "u" ]} : gmap string entry) !! "foo" = Some c
       ∧ detail (Entry "Foo" "Foo package" "u") = detail c
       ∧ documentation (Entry "Foo" "Foo package" "u") = documentation c
       ∧ package2sty "foo" {[ "foo" := ["Foo.sty"] ]} ["Foo.sty"]
         = Some (command (Entry "Foo" "Foo package" "u")).
Proof.
  apply (proj1 (get_packages_sub_catalogue {[ "foo" := ["Foo.sty"] ]}
                  {[ "foo" := Entry "foo" "Foo package" "u" ]} ["Foo.sty"]) "foo").
  vm_compute. reflexivity.
Defined.

(** X14.  The keys of the merged table are those of the package table
    and those of the extras, and no other; merging an empty table of
    extras, or into an empty package table, changes nothing. *)
Theorem add_extra_packages_keys (packages extra_packages : gmap string entry) :
  dom (add_extra_packages packages extra_packages)
    = dom packages ∪ dom extra_packages
  ∧ add_extra_packages packages ∅ = packages
  ∧ add_extra_packages ∅ extra_packages = extra_packages.
Proof.
  rewrite !add_extra_packages_union. split_and!.
  - apply dom_union_L.
  - apply (right_id_L ∅ (∪)).
  - apply (left_id_L ∅ (∪)).
Qed.

(** X15.  Merging the same extras twice is merging them once, and
    merging two tables of extras one after the other is merging the
    first, itself completed by the second. *)
Theorem add_extra_packages_compose (packages extra1 extra2 : gmap string entry) :
  add_extra_packages (add_extra_packages packages extra1) extra1
    = add_extra_packages packages extra1
  ∧ add_extra_packages (add_extra_packages packages extra1) extra2
    = add_extra_packages packages (add_extra_packages extra1 extra2).
Proof.
  rewrite !add_extra_packages_union. split.
  - by rewrite <- (assoc_L (∪)), (idemp_L (∪)).
  - by rewrite (assoc_L (∪)).
Qed.

Lemma build_ctanDict_is_Some (ctanList : list ctan_record) (k : string) :
  is_Some (build_ctanDict ctanList !! k) ↔ k ∈ key <$> ctanList.
Proof.
  split.
  - intros [e (x & Hx & <- & _)%build_ctanDict_lookup_Some].
    apply list_elem_of_fmap. by exists x.
  - intros (x & -> & Hx)%list_elem_of_fmap.
    induction ctanList as [|y l IH] using rev_ind.
    { by apply elem_of_nil in Hx. }
    rewrite build_ctanDict_snoc.
    destruct (decide (key y = key x)) as [->|Hne].
    + rewrite lookup_insert_eq. by eexists.
    + rewrite lookup_insert_ne by done. apply IH.
      apply elem_of_app in Hx as [?|Hx]; [done|].
      apply list_elem_of_singleton in Hx. by subst.
Qed.

(** X16.  The keys of the catalogue table are the keys of the records:
    no record is lost, repeated keys included, and no key is made up; the
    table has at most as many entries as the list has records. *)
Theorem build_ctanDict_keys (ctanList : list ctan_record) :
  (∀ k, is_Some (build_ctanDict ctanList !! k) ↔ ∃ x, x ∈ ctanList ∧ key x = k)
  ∧ size (build_ctanDict ctanList) ≤ length ctanList.
Proof.
  split.
  - intros k. rewrite build_ctanDict_is_Some, list_elem_of_fmap.
    split; [intros (x & -> & ?) | intros (x & ? & <-)]; by exists x.
  - induction ctanList as [|x l IH] using rev_ind; [done|].
    rewrite build_ctanDict_snoc, length_app. simpl.
    destruct (build_ctanDict l !! key x) as [e|] eqn:He.
    + rewrite map_size_insert_Some by (by eexists). lia.
    + rewrite map_size_insert_None by done. lia.
Qed.

(** X17.  The table of two lists put end to end is the table of the
    second list completed by the table of the first: a key of both keeps
    the entry of the second. *)
Theorem build_ctanDict_app (ctanList1 ctanList2 : list ctan_record) :
  build_ctanDict (ctanList1 ++ ctanList2)
  = build_ctanDict ctanList2 ∪ build_ctanDict ctanList1.
Proof.
  induction ctanList2 as [|x l IH] using rev_ind.
  - rewrite app_nil_r. change (build_ctanDict []) with (∅ : gmap string entry).
    by rewrite (left_id_L ∅ (∪)).
  - rewrite (assoc_L (++)), !build_ctanDict_snoc, IH.
    by rewrite insert_union_l.
Qed.

(** ** From a line of the index to the tables *)

Section file_lines.
Context (ctanDict : gmap string entry).
Implicit Types (st : parser_state) (raw hdr blank p q f : string)
  (pre files rest : list string).
Import Str StrFacts Path PathFacts MoreFacts.

Lemma startswith_has_sep (pre' s : string) :
  has_sep pre' = true → startswith pre' s = true → has_sep s = true.
Proof.
  intros Hpre [r ->]%startswith_inv. by rewrite has_sep_app, Hpre.
Qed.

(** A simple name with one of the three extensions is a file line, and a
    wanted one. *)
Lemma simple_file_line p (ext : string) :
  simple_name p → ext ∈ [".sty"; ".def"; ".cls"] →
  skipped (p +:+ ext) = false ∧ opens_block (p +:+ ext) = false
  ∧ wanted_suffix (p +:+ ext) = true ∧ name (p +:+ ext) = p +:+ ext.
Proof.
  intros Hp Hext.
  destruct (path_simple_ext p ext Hp Hext) as (Hname & Hsuffix & _).
  assert (has_sep (p +:+ ext) = false) as Hsep.
  { rewrite has_sep_app. destruct Hp as [-> _].
    apply list_elem_of_In in Hext. simpl in Hext.
    by destruct Hext as [<-|[<-|[<-|[]]]]. }
  split_and!; [| | |done].
  - unfold skipped. apply orb_false_intro.
    + destruct (startswith "./doc" _) eqn:H; [|done].
      apply startswith_has_sep in H; [congruence|done].
    + destruct (startswith "./source" _) eqn:H; [|done].
      apply startswith_has_sep in H; [congruence|done].
  - unfold opens_block. apply andb_false_intro2.
    destruct (startswith "./" _) eqn:H; [|done].
    apply startswith_has_sep in H; [congruence|done].
  - unfold wanted_suffix. rewrite Hsuffix. by apply bool_decide_eq_true_2.
Qed.

Lemma collected_elem files raw p (ext : string) :
  simple_name p → ext ∈ [".sty"; ".def"; ".cls"] →
  raw ∈ files → rstrip_nl raw = p +:+ ext → (p +:+ ext) ∈ collected files.
Proof.
  intros Hp Hext Hraw Hline.
  destruct (simple_file_line p ext Hp Hext) as (Hskip & _ & Hw & Hname).
  unfold collected. apply list_elem_of_fmap. exists (p +:+ ext).
  split; [done|]. apply list_elem_of_filter. split.
  - by rewrite Hskip, Hw.
  - apply list_elem_of_fmap. by exists raw.
Qed.

Lemma step_blank_commit st blank q :
  pkg st = Some q → rstrip_nl blank = "" → pkgfiles st ≠ [] →
  lsRdb (step ctanDict st blank) !! q
  = Some (default [] (lsRdb st !! q) ++ pkgfiles st).
Proof.
  intros Hq Hblank Hne. unfold step, enter, collect. rewrite Hblank. simpl.
  rewrite Hq. simpl. destruct (pkgfiles st); [done|].
  by rewrite lookup_insert_eq.
Qed.

Lemma open_block_state pre hdr files q :
  effective_header (rstrip_nl hdr) = true →
  find_pkg ctanDict (rstrip_nl hdr) = Some q →
  Forall (λ raw, rstrip_nl raw ≠ "" ∧ effective_header (rstrip_nl raw) = false) files →
  run ctanDict init_state (pre ++ hdr :: files)
  = {| lsRdb := lsRdb (run ctanDict init_state pre); pkg := Some q;
       pkgfiles := collected files;
       allfiles := allfiles (run ctanDict init_state pre) ++ collected files |}.
Proof.
  intros Hhdr Hq Hfiles.
  rewrite run_app, run_cons, step_header, Hq by done.
  by rewrite (run_files ctanDict _ files q).
Qed.

Lemma open_block_allfiles pre hdr files rest q f :
  effective_header (rstrip_nl hdr) = true →
  find_pkg ctanDict (rstrip_nl hdr) = Some q →
  Forall (λ raw, rstrip_nl raw ≠ "" ∧ effective_header (rstrip_nl raw) = false) files →
  f ∈ collected files →
  f ∈ (load_texmfbd (pre ++ hdr :: files ++ rest) ctanDict).2.
Proof.
  intros Hhdr Hq Hfiles Hf. unfold load_texmfbd. simpl.
  rewrite app_comm_cons, (assoc_L (++)), run_app.
  eapply elem_of_prefix; [|apply run_allfiles_prefix].
  rewrite (open_block_state pre hdr files q) by done. simpl.
  apply elem_of_app. by right.
Qed.

End file_lines.

(** X18.  The files of a block that is closed by a blank line are
    gathered: when the header resolves to the package [q], every name
    collected from the file lines of the block is in the list of all
    files and in the list of [q] in [lsRdb], whatever comes before and
    after the block. *)
Theorem closed_block_files (ctanDict : gmap string entry)
    (pre files rest : list string) (hdr blank q f : string) :
  effective_header (Str.rstrip_nl hdr) = true →
  find_pkg ctanDict (Str.rstrip_nl hdr) = Some q →
  Forall (λ raw, Str.rstrip_nl raw ≠ ""
                 ∧ effective_header (Str.rstrip_nl raw) = false) files →
  Str.rstrip_nl blank = "" →
  f ∈ collected files →
  f ∈ (load_texmfbd (pre ++ hdr :: files ++ blank :: rest) ctanDict).2
  ∧ ∃ l, (load_texmfbd (pre ++ hdr :: files ++ blank :: rest) ctanDict).1 !! q = Some l
         ∧ f ∈ l.
Proof.
  intros Hhdr Hq Hfiles Hblank Hf. split.
  { by eapply open_block_allfiles. }
  unfold load_texmfbd. simpl.
  rewrite app_comm_cons, (assoc_L (++)), run_app, run_cons.
  rewrite (open_block_state ctanDict pre hdr files q) by done.
  edestruct (run_lsRdb_grows ctanDict) as [l' ->].
  { apply step_blank_commit; [done..|]. simpl. intros Hnil.
    rewrite Hnil in Hf. by apply elem_of_nil in Hf. }
  eexists. split; [done|]. simpl.
  apply elem_of_app. left. apply elem_of_app. by right.
Qed.

Lemma closed_block_files_witness :
  "foo.sty" ∈ (load_texmfbd (map ln ["% ls-R"] ++ ln "./tex/latex/foo:"
                             :: map ln ["foo.sty"; "README"] ++ ln ""
                             :: map ln ["./tex/bar:"; "bar.sty"])
                            {[ "foo" := Entry "foo" "" "" ]}).2
  ∧ ∃ l, (load_texmfbd (map ln ["% ls-R"] ++ ln "./tex/latex/foo:"
                        :: map ln ["foo.sty"; "README"] ++ ln ""
                        :: map ln ["./tex/bar:"; "bar.sty"])
                       {[ "foo" := Entry "foo" "" "" ]}).1 !! "foo" = Some l
         ∧ "foo.sty" ∈ l.
Proof.
  apply closed_block_files.
  - vm_compute. reflexivity.
  - vm_compute. reflexivity.
  - repeat constructor; vm_compute; congruence.
  - reflexivity.
  - compute_done.
Defined.

(** X19.  An installed package is resolved: when [p] is a key of the
    catalogue, not empty and without a slash, and a line [p.sty] is read
    in a block whose header resolves to some package, the package table
    has [p] with command [p] and documentation
    ["https://ctan.org/pkg/" + p], and the merger keeps this entry. *)
Theorem installed_package_resolved (ctanList : list ctan_record)
    (pre files rest : list string) (hdr raw p : string) :
  p ∈ key <$> ctanList →
  Str.has_sep p = false → p ≠ "" →
  effective_header (Str.rstrip_nl hdr) = true →
  is_Some (find_pkg (build_ctanDict ctanList) (Str.rstrip_nl hdr)) →
  Forall (λ raw, Str.rstrip_nl raw ≠ ""
                 ∧ effective_header (Str.rstrip_nl raw) = false) files →
  raw ∈ files → Str.rstrip_nl raw = p +:+ ".sty" →
  ∃ e, main_packages ctanList (pre ++ hdr :: files ++ rest) !! p = Some e
       ∧ command e = p
       ∧ documentation e = "https://ctan.org/pkg/" +:+ p
       ∧ ∀ extra, (main ctanList (pre ++ hdr :: files ++ rest) extra).1 !! p = Some e.
Proof.
  intros Hkey Hsep Hne Hhdr [q Hq] Hfiles Hraw Hline.
  assert ((p +:+ ".sty") ∈
            (load_texmfbd (pre ++ hdr :: files ++ rest) (build_ctanDict ctanList)).2)
    as Hall.
  { eapply open_block_allfiles; [done..|].
    eapply collected_elem; [done| |done..]. by constructor. }
  apply build_ctanDict_is_Some in Hkey as [c Hc].
  assert (main_packages ctanList (pre ++ hdr :: files ++ rest) !! p
          = Some (set_command c p)) as Hp.
  { rewrite main_packages_eq, get_packages_lookup, Hc. simpl.
    unfold package2sty. by rewrite bool_decide_eq_true_2. }
  exists (set_command c p). split_and!; [done..| |].
  - apply build_ctanDict_lookup_Some in Hc as (x & _ & <- & ->). done.
  - intros extra. unfold main. simpl. rewrite add_extra_packages_union.
    by apply lookup_union_Some_l.
Qed.

Lemma installed_package_resolved_witness :
  ∃ e, main_packages [CtanRecord "foo" "Foo package"; CtanRecord "latex" "LaTeX"]
         (map ln ["% ls-R"] ++ ln "./tex/latex/misc:"
          :: map ln ["other.tex"; "foo.sty"] ++ map ln [""]) !! "foo" = Some e
       ∧ command e = "foo"
       ∧ documentation e = "https://ctan.org/pkg/" +:+ "foo"
       ∧ ∀ extra, (main [CtanRecord "foo" "Foo package"; CtanRecord "latex" "LaTeX"]
                     (map ln ["% ls-R"] ++ ln "./tex/latex/misc:"
                      :: map ln ["other.tex"; "foo.sty"] ++ map ln [""]) extra).1 !! "foo"
                  = Some e.
Proof.
  apply (installed_package_resolved
           [CtanRecord "foo" "Foo package"; CtanRecord "latex" "LaTeX"]
           (map ln ["% ls-R"]) (map ln ["other.tex"; "foo.sty"]) (map ln [""])
           (ln "./tex/latex/misc:") (ln "foo.sty") "foo").
  - compute_done.
  - reflexivity.
  - discriminate.
  - vm_compute. reflexivity.
  - exists "latex". vm_compute. reflexivity.
  - repeat constructor; vm_compute; congruence.
  - compute_done.
  - reflexivity.
Defined.

(** X20.  An installed class is listed: when a line [p.cls], [p] not
    empty and without a slash, is read in a block whose header resolves
    to some package, the class table has [p] with command [p], and with
    the detail and documentation of the catalogue entry of [p] when there
    is one and empty strings otherwise. *)
Theorem installed_class_listed (ctanList : list ctan_record)
    (pre files rest : list string) (hdr raw p : string) :
  Str.has_sep p = false → p ≠ "" →
  effective_header (Str.rstrip_nl hdr) = true →
  is_Some (find_pkg (build_ctanDict ctanList) (Str.rstrip_nl hdr)) →
  Forall (λ raw, Str.rstrip_nl raw ≠ ""
                 ∧ effective_header (Str.rstrip_nl raw) = false) files →
  raw ∈ files → Str.rstrip_nl raw = p +:+ ".cls" →
  main_classes ctanList (pre ++ hdr :: files ++ rest) !! p
  = Some {| command := p;
            detail := default "" (detail <$> build_ctanDict ctanList !! p);
            documentation :=
              default "" (documentation <$> build_ctanDict ctanList !! p) |}.
Proof.
  intros Hsep Hne Hhdr [q Hq] Hfiles Hraw Hline.
  assert ((p +:+ ".cls") ∈
            (load_texmfbd (pre ++ hdr :: files ++ rest) (build_ctanDict ctanList)).2)
    as Hall.
  { eapply open_block_allfiles; [done..|].
    eapply collected_elem; [done| |done..]. compute_done. }
  destruct (MoreFacts.path_simple_ext p ".cls") as (_ & _ & Hstem).
  { done. } { compute_done. }
  rewrite main_classes_eq, <- class_entry_eq, <- Hstem.
  apply get_classes_elem; [done|apply StrFacts.endswith_app].
Qed.

Lemma installed_class_listed_witness :
  main_classes [CtanRecord "latex" "LaTeX"]
    (map ln ["% ls-R"] ++ ln "./tex/latex/base:"
     :: map ln ["article.cls"; "size10.clo"] ++ map ln [""]) !! "article"
  = Some {| command := "article";
            detail := default "" (detail <$> build_ctanDict [CtanRecord "latex" "LaTeX"]
                                              !! "article");
            documentation :=
              default "" (documentation <$> build_ctanDict [CtanRecord "latex" "LaTeX"]
                                              !! "article") |}.
Proof.
  apply (installed_class_listed [CtanRecord "latex" "LaTeX"]
           (map ln ["% ls-R"]) (map ln ["article.cls"; "size10.clo"]) (map ln [""])
           (ln "./tex/latex/base:") (ln "article.cls") "article").
  - reflexivity.
  - discriminate.
  - vm_compute. reflexivity.
  - exists "latex". vm_compute. reflexivity.
  - repeat constructor; vm_compute; congruence.
  - compute_done.
  - reflexivity.
Defined.
